(** * Task organizer: the REST client for the tasks API and the handlers
      of the single-page UI that calls it.

    The development embeds two files of the repository:
    - the API client ([src/unnamed/part_001], imported by the UI as
      [./api/tasks]): base URL resolution, [safeReadBody],
      [toHelpfulErrorMessage], [requestJson] and the five operations;
    - the UI ([src/frontend_web/src/App.js]): [sortTasks] and the handlers
      that call the client and update the component state.

    JavaScript strings are sequences of UTF-16 code units, JSON numbers are
    binary64 floats, a rejected promise or a [throw] is the [Thrown] case of
    an outcome, and [fetch] is the one effect of a small free monad. *)

From Stdlib Require Import List NArith ZArith Bool Lia Sorted Permutation.
From Stdlib Require Import Strings.String Strings.Ascii Numbers.DecimalString.
From Stdlib Require Import Floats.PrimFloat.
Import ListNotations.

Set Warnings "-register-all".

(** ** The JavaScript values the client handles *)

Module JS.

(** A string is a list of UTF-16 code units. *)
Definition code_unit : Type := N.
Definition jsstring : Type := list code_unit.

(** An ASCII literal of the source as a JavaScript string. *)
Definition js (s : string) : jsstring :=
  List.map N_of_ascii (list_ascii_of_string s).

(** [String.prototype.startsWith]. *)
Fixpoint startsWith (s p : jsstring) {struct p} : bool :=
  match p, s with
  | [], _ => true
  | _ :: _, [] => false
  | c :: p', d :: s' => N.eqb c d && startsWith s' p'
  end.

(** [String.prototype.includes]. *)
Fixpoint includes (s sub : jsstring) : bool :=
  startsWith s sub ||
  match s with
  | [] => false
  | _ :: s' => includes s' sub
  end.

(** WhiteSpace and LineTerminator of ECMAScript, the code units that
    [String.prototype.trim] removes. *)
Definition is_white_space (c : code_unit) : bool :=
  ((9 <=? c) && (c <=? 13) || (c =? 32) || (c =? 160) || (c =? 5760)
   || (8192 <=? c) && (c <=? 8202) || (c =? 8232) || (c =? 8233)
   || (c =? 8239) || (c =? 8287) || (c =? 12288) || (c =? 65279))%N.

Fixpoint trimStart (s : jsstring) : jsstring :=
  match s with
  | [] => []
  | c :: s' => if is_white_space c then trimStart s' else s
  end.

Definition trimEnd (s : jsstring) : jsstring := rev (trimStart (rev s)).

Definition trim (s : jsstring) : jsstring := trimEnd (trimStart s).

(** [String.prototype.toLowerCase] on the code units of a header value.
    [Headers.get] returns a byte string (every code unit below 256); there
    the upper-case letters are A-Z and the Latin-1 letters 0xC0-0xDE other
    than the multiplication sign 0xD7. *)
Definition lower_unit (c : code_unit) : code_unit :=
  (if (65 <=? c) && (c <=? 90) then c + 32
   else if (192 <=? c) && (c <=? 222) && negb (c =? 215) then c + 32
   else c)%N.

Definition toLowerCase (s : jsstring) : jsstring := List.map lower_unit s.

(** [String.prototype.toUpperCase] on an HTTP method, an ASCII token. *)
Definition upper_unit (c : code_unit) : code_unit :=
  (if (97 <=? c) && (c <=? 122) then c - 32 else c)%N.

Definition toUpperCase (s : jsstring) : jsstring := List.map upper_unit s.

(** [s.replace(/\/$/, "")]: the pattern matches one slash followed by the
    end of the input, so the scan passes every code unit that is not the
    last one and drops the last one when it is a slash. *)
Fixpoint replace_trailing_slash (s : jsstring) : jsstring :=
  match s with
  | [] => []
  | c :: rest =>
      match rest with
      | [] => if (c =? 47)%N then [] else [c]
      | _ :: _ => c :: replace_trailing_slash rest
      end
  end.

(** The decimal text of an integer number inside a template literal. *)
Definition string_of_N (n : N) : jsstring :=
  js (NilZero.string_of_uint (N.to_uint n)).

Definition string_of_Z (z : Z) : jsstring :=
  js (NilZero.string_of_int (Z.to_int z)).

(** [x || y] on strings that may be [undefined]: the empty string and
    [undefined] are falsy. *)
Definition or_string (x : option jsstring) (y : jsstring) : jsstring :=
  match x with
  | Some (c :: s) => c :: s
  | Some [] | None => y
  end.

(** A JavaScript value as [JSON.parse] builds it, with [undefined] for the
    result of reading a missing property.  An object lists its own
    properties; a key occurs once. *)
Inductive value : Type :=
| VUndefined
| VNull
| VBool (b : bool)
| VNum (n : float)
| VStr (s : jsstring)
| VArr (items : list value)
| VObj (fields : list (jsstring * value)).

(** ToBoolean. *)
Definition truthy (v : value) : bool :=
  match v with
  | VUndefined | VNull => false
  | VBool b => b
  | VNum n => negb (is_zero n || is_nan n)
  | VStr s => match s with [] => false | _ :: _ => true end
  | VArr _ | VObj _ => true
  end.

(** [typeof v === "string"]. *)
Definition is_string (v : value) : bool :=
  match v with
  | VStr _ => true
  | _ => false
  end.

Definition jsstring_eqb (a b : jsstring) : bool :=
  if list_eq_dec N.eq_dec a b then true else false.

Fixpoint lookup (k : jsstring) (fields : list (jsstring * value)) : value :=
  match fields with
  | [] => VUndefined
  | (k', v) :: rest => if jsstring_eqb k k' then v else lookup k rest
  end.

(** An error object: its name and its message. *)
Record error : Type := { name : jsstring; message : jsstring }.

Definition Error (msg : jsstring) : error :=
  {| name := js "Error"; message := msg |}.

Definition TypeError (msg : jsstring) : error :=
  {| name := js "TypeError"; message := msg |}.

(** [String(e)], that is [Error.prototype.toString]. *)
Definition String_of_error (e : error) : jsstring :=
  match name e, message e with
  | [], m => m
  | n, [] => n
  | n, m => n ++ js ": " ++ m
  end.

(** How an awaited call ends: it returns or it throws. *)
Inductive outcome (A : Type) : Type :=
| Returned (a : A)
| Thrown (e : error).
Arguments Returned {A} a.
Arguments Thrown {A} e.

(** [v.key] for a key that no built-in prototype defines: an object gives
    its own property, [null] and [undefined] throw, any other value gives
    [undefined]. *)
Definition get (v : value) (k : jsstring) : outcome value :=
  match v with
  | VUndefined | VNull => Thrown (TypeError (js "Cannot read properties"))
  | VObj fields => Returned (lookup k fields)
  | _ => Returned VUndefined
  end.

(** [p.catch(() => d)]. *)
Definition catch_default {A : Type} (p : outcome A) (d : A) : A :=
  match p with
  | Returned a => a
  | Thrown _ => d
  end.

End JS.

(** ** The network: [fetch] and the responses it resolves to *)

Module Net.
Import JS.

(** The body option of a request: absent, or [JSON.stringify] of a value
    (recorded as the value that is serialized). *)
Inductive request_body : Type :=
| NoBody
| JsonBody (v : value).

(** The options object passed to [fetch]. *)
Record options : Type := {
  method : option jsstring;
  headers : list (jsstring * jsstring);
  body : request_body
}.

(** [{}], the default of [requestJson]'s second parameter. *)
Definition no_options : options :=
  {| method := None; headers := []; body := NoBody |}.

(** A response as the client observes it: the status, the content-type
    header ([None] when [Headers.get] gives [null]), and what a first call
    of [res.json()] or of [res.text()] settles to. *)
Record Response : Type := {
  status : N;
  content_type : option string;
  body_json : outcome value;
  body_text : outcome jsstring
}.

(** [res.ok]: the status is in the range 200-299. *)
Definition ok (res : Response) : bool :=
  ((200 <=? status res) && (status res <=? 299))%N.

(** [res.headers.get("content-type")]: the header's bytes, one code unit
    per byte. *)
Definition headers_get_content_type (res : Response) : option jsstring :=
  option_map js (content_type res).

Definition json (res : Response) : outcome value := body_json res.

(** [res.text()]; once [res.json()] has read the body the stream is used and
    the call rejects. *)
Definition text (body_used : bool) (res : Response) : outcome jsstring :=
  if body_used then Thrown (TypeError (js "body stream already read"))
  else body_text res.

(** What [fetch] gives for a URL and options: a response, or a rejection
    when the transport fails. *)
Definition network : Type := jsstring -> options -> outcome Response.

(** Client code: it ends with an outcome or awaits a [fetch] and goes on
    with the response. A rejected [fetch] is rethrown to the caller, none of
    the client's calls is inside a [try]. *)
Inductive io (A : Type) : Type :=
| Done (o : outcome A)
| Fetch (url : jsstring) (opts : options) (k : Response -> io A).
Arguments Done {A} o.
Arguments Fetch {A} url opts k.

Definition ret {A : Type} (a : A) : io A := Done (Returned a).
Definition throw {A : Type} (e : error) : io A := Done (Thrown e).

Fixpoint bind {A B : Type} (m : io A) (f : A -> io B) : io B :=
  match m with
  | Done (Returned a) => f a
  | Done (Thrown e) => Done (Thrown e)
  | Fetch u o k => Fetch u o (fun res => bind (k res) f)
  end.

Definition fetch (u : jsstring) (o : options) : io Response :=
  Fetch u o (fun res => ret res).

(** Running client code against a network. *)
Fixpoint run {A : Type} (net : network) (m : io A) : outcome A :=
  match m with
  | Done o => o
  | Fetch u o k =>
      match net u o with
      | Returned res => run net (k res)
      | Thrown e => Thrown e
      end
  end.

(** The requests client code sends on a network, in order. *)
Fixpoint requests {A : Type} (net : network) (m : io A)
  : list (jsstring * options) :=
  match m with
  | Done _ => []
  | Fetch u o k =>
      (u, o) ::
      match net u o with
      | Returned res => requests net (k res)
      | Thrown _ => []
      end
  end.

End Net.

Declare Scope io_scope.
Delimit Scope io_scope with io.
Notation "x <- m ;; f" := (Net.bind m (fun x => f))
  (at level 61, m at next level, right associativity) : io_scope.

(** ** The REST client for the tasks API ([./api/tasks]) *)

Module TasksApi.
Import JS Net.
Local Open Scope io_scope.

(** The two variables of [process.env] the client reads; [None] is
    [undefined]. *)
Record env : Type := {
  REACT_APP_API_BASE : option jsstring;
  REACT_APP_API_BASE_URL : option jsstring
}.

(** [x || y] where both may be [undefined]. *)
Definition or_undefined (x y : option jsstring) : option jsstring :=
  match x with
  | Some (_ :: _) => x
  | Some [] | None => y
  end.

Definition API_BASE (process_env : env) : jsstring :=
  replace_trailing_slash
    (or_string
       (or_undefined (REACT_APP_API_BASE process_env)
                     (REACT_APP_API_BASE_URL process_env))
       (js "")).

Definition url (process_env : env) (path : jsstring) : jsstring :=
  API_BASE process_env ++ path.

(** The object [safeReadBody] returns when [res.json()] rejects. *)
Definition parse_failure (raw : jsstring) (e : error) : value :=
  VObj [ (js "__parse_error", VBool true);
         (js "__raw", VStr raw);
         (js "__error", VStr (String_of_error e)) ].

(** Whether the lower-cased content type selects the JSON branch. *)
Definition is_json_content_type (contentType : jsstring) : bool :=
  includes contentType (js "application/json")
  || includes contentType (js "+json").

Definition safeReadBody (res : Response) : value :=
  let contentType :=
    toLowerCase (or_string (headers_get_content_type res) (js "")) in
  if is_json_content_type contentType then
    match json res with
    | Returned v => v
    | Thrown e =>
        let text := catch_default (text true res) (js "") in
        parse_failure text e
    end
  else
    let text := catch_default (text false res) (js "") in
    VStr text.

Definition html_hint : jsstring :=
  js "Received HTML instead of JSON. Check API base URL configuration.".

Definition other_hint : jsstring := js "Unexpected response from server.".

Definition toHelpfulErrorMessage
  (method path : jsstring) (status : N) (body : value) : jsstring :=
  let hint :=
    match body with
    | VStr s => if startsWith (trim s) (js "<!DOCTYPE") then html_hint
                else other_hint
    | _ => other_hint
    end in
  method ++ js " " ++ path ++ js " failed (" ++ string_of_N status ++ js "). "
    ++ hint.

Definition non_json_message (method path : jsstring) : jsstring :=
  js "Unexpected non-JSON response for " ++ method ++ js " " ++ path
    ++ js ". Check API base URL configuration.".

Definition invalid_json_message (method path : jsstring) : jsstring :=
  js "Invalid JSON response for " ++ method ++ js " " ++ path
    ++ js ". Check API base URL configuration.".

(** [(options.method || "GET").toUpperCase()]. *)
Definition request_method (opts : options) : jsstring :=
  toUpperCase (or_string (Net.method opts) (js "GET")).

(** [body && body.__parse_error]. *)
Definition parse_error_mark (body : value) : outcome value :=
  if truthy body then get body (js "__parse_error") else Returned body.

Definition requestJson (process_env : env) (path : jsstring) (opts : options)
  : io value :=
  let method := request_method opts in
  res <- fetch (url process_env path) opts ;;
  let body := safeReadBody res in
  if negb (ok res) then
    throw (Error (toHelpfulErrorMessage method path (status res) body))
  else if is_string body then
    throw (Error (non_json_message method path))
  else
    mark <- Done (parse_error_mark body) ;;
    if truthy mark then throw (Error (invalid_json_message method path))
    else ret body.

Definition json_headers : list (jsstring * jsstring) :=
  [ (js "Content-Type", js "application/json") ].

Definition listTasks (process_env : env) : io value :=
  requestJson process_env (js "/tasks") no_options.

Definition createTask (process_env : env) (title : value) : io value :=
  requestJson process_env (js "/tasks")
    {| method := Some (js "POST");
       headers := json_headers;
       body := JsonBody (VObj [ (js "title", title) ]) |}.

(** The path of one task, [`/tasks/${taskId}`]; the identifier is an
    integer and is written in decimal. *)
Definition task_path (taskId : Z) : jsstring :=
  js "/tasks/" ++ string_of_Z taskId.

Definition updateTask (process_env : env) (taskId : Z) (patch : value)
  : io value :=
  requestJson process_env (task_path taskId)
    {| method := Some (js "PUT");
       headers := json_headers;
       body := JsonBody patch |}.

Definition toggleTask (process_env : env) (taskId : Z) : io value :=
  requestJson process_env (task_path taskId ++ js "/toggle")
    {| method := Some (js "POST"); headers := []; body := NoBody |}.

Definition delete_options : options :=
  {| method := Some (js "DELETE"); headers := []; body := NoBody |}.

Definition deleteTask (process_env : env) (taskId : Z) : io unit :=
  res <- fetch (url process_env (task_path taskId)) delete_options ;;
  if negb (ok res) then
    let body := safeReadBody res in
    throw (Error (toHelpfulErrorMessage (js "DELETE") (task_path taskId)
                    (status res) body))
  else ret tt.

End TasksApi.

(** ** The UI component ([App.js]) *)

Module App.
Import JS Net.

(** A task of the wire contract: [{id, title, is_completed}]. *)
Record Task : Type := {
  id : Z;
  title : jsstring;
  is_completed : bool
}.

(** The comparator of [sortTasks]: completed tasks go to the bottom,
    otherwise newer first by id. *)
Definition compare_tasks (a b : Task) : Z :=
  if negb (Bool.eqb (is_completed a) (is_completed b))
  then (if is_completed a then 1 else -1)
  else id b - id a.

(** [Array.prototype.sort] is stable: an element goes before the first
    one it does not compare greater than. *)
Fixpoint sort_insert (cmp : Task -> Task -> Z) (x : Task) (l : list Task)
  : list Task :=
  match l with
  | [] => [x]
  | y :: l' => if (cmp x y <=? 0)%Z then x :: l else y :: sort_insert cmp x l'
  end.

Definition sort (cmp : Task -> Task -> Z) (l : list Task) : list Task :=
  fold_right (sort_insert cmp) [] l.

Definition sortTasks (tasks : list Task) : list Task := sort compare_tasks tasks.

(** [remainingCount]: [tasks.filter((t) => !t.is_completed).length]. *)
Definition remainingCount (tasks : list Task) : nat :=
  List.length (filter (fun t => negb (is_completed t)) tasks).

(** The state the component keeps with [useState]. *)
Record state : Type := {
  tasks : list Task;
  newTitle : jsstring;
  loading : bool;
  error : jsstring;
  editingId : option Z;
  editingTitle : jsstring
}.

(** [useState]'s initial values. *)
Definition initial : state :=
  {| tasks := []; newTitle := []; loading := true; error := [];
     editingId := None; editingTitle := [] |}.

Definition setTasks (f : list Task -> list Task) (s : state) : state :=
  {| tasks := f (tasks s); newTitle := newTitle s; loading := loading s;
     error := error s; editingId := editingId s;
     editingTitle := editingTitle s |}.

Definition setNewTitle (v : jsstring) (s : state) : state :=
  {| tasks := tasks s; newTitle := v; loading := loading s;
     error := error s; editingId := editingId s;
     editingTitle := editingTitle s |}.

Definition setLoading (v : bool) (s : state) : state :=
  {| tasks := tasks s; newTitle := newTitle s; loading := v;
     error := error s; editingId := editingId s;
     editingTitle := editingTitle s |}.

Definition setError (v : jsstring) (s : state) : state :=
  {| tasks := tasks s; newTitle := newTitle s; loading := loading s;
     error := v; editingId := editingId s;
     editingTitle := editingTitle s |}.

Definition setEditingId (v : option Z) (s : state) : state :=
  {| tasks := tasks s; newTitle := newTitle s; loading := loading s;
     error := error s; editingId := v; editingTitle := editingTitle s |}.

Definition setEditingTitle (v : jsstring) (s : state) : state :=
  {| tasks := tasks s; newTitle := newTitle s; loading := loading s;
     error := error s; editingId := editingId s; editingTitle := v |}.

(** [e.message || fallback]. *)
Definition message_or (e : JS.error) (fallback : jsstring) : jsstring :=
  or_string (Some (message e)) fallback.

(** [editingId === taskId], with [null] for no task being edited. *)
Definition editing (s : state) (taskId : Z) : bool :=
  match editingId s with
  | Some i => (i =? taskId)%Z
  | None => false
  end.

Definition beginEdit (task : Task) (s : state) : state :=
  setEditingTitle (title task) (setEditingId (Some (id task)) s).

Definition cancelEdit (s : state) : state :=
  setEditingTitle (js "") (setEditingId None s).

(** The component is written against the client's interface: the five
    operations of [./api/tasks], run on the network of the session.  A
    handler reads the values of the render it was created in ([render]) and
    updates the current state. *)
Section Component.

Variable net : network.
Variable listTasks : io (list Task).
Variable createTask : jsstring -> io Task.
Variable updateTask : Z -> jsstring -> io Task.
Variable toggleTask : Z -> io Task.
Variable deleteTask : Z -> io unit.

(** The effect that loads the list; [cancelled] is the flag the cleanup
    sets, read after the await. *)
Definition load (cancelled : bool) (s : state) : state :=
  let s := setLoading true (setError (js "") s) in
  let s :=
    match run net listTasks with
    | Returned data =>
        if negb cancelled then setTasks (fun _ => sortTasks data) s else s
    | Thrown e =>
        if negb cancelled then setError (message_or e (js "Failed to load tasks.")) s
        else s
    end in
  if negb cancelled then setLoading false s else s.

Definition handleAdd (render s : state) : state :=
  let title := trim (newTitle render) in
  match title with
  | [] => s
  | _ :: _ =>
      let s := setError (js "") s in
      match run net (createTask title) with
      | Returned created =>
          setNewTitle (js "")
            (setTasks (fun prev => sortTasks (created :: prev)) s)
      | Thrown e2 => setError (message_or e2 (js "Failed to create task.")) s
      end
  end.

Definition handleToggle (id0 : Z) (s : state) : state :=
  let s := setError (js "") s in
  match run net (toggleTask id0) with
  | Returned updated =>
      setTasks
        (fun prev =>
           sortTasks (map (fun t => if (id t =? id0)%Z then updated else t) prev))
        s
  | Thrown e => setError (message_or e (js "Failed to toggle task.")) s
  end.

Definition saveEdit (render : state) (taskId : Z) (s : state) : state :=
  let title := trim (editingTitle render) in
  match title with
  | [] => s
  | _ :: _ =>
      let s := setError (js "") s in
      match run net (updateTask taskId title) with
      | Returned updated =>
          cancelEdit
            (setTasks
               (fun prev =>
                  sortTasks
                    (map (fun t => if (id t =? taskId)%Z then updated else t) prev))
               s)
      | Thrown e => setError (message_or e (js "Failed to update task.")) s
      end
  end.

Definition handleDelete (render : state) (taskId : Z) (s : state) : state :=
  let s := setError (js "") s in
  match run net (deleteTask taskId) with
  | Returned _ =>
      let s :=
        setTasks (filter (fun t => negb (id t =? taskId)%Z)) s in
      if editing render taskId then cancelEdit s else s
  | Thrown e => setError (message_or e (js "Failed to delete task.")) s
  end.

End Component.

End App.

(** ** The operations as the UI sees them *)

Module Client.
Import JS Net TasksApi.
Local Open Scope io_scope.

(** The five exported operations with their arguments. *)
Inductive operation : Type :=
| List
| Create (title : value)
| Update (taskId : Z) (patch : value)
| Toggle (taskId : Z)
| Delete (taskId : Z).

(** Calling an operation and awaiting it; [deleteTask] has no [return], its
    promise resolves to [undefined]. *)
Definition perform (process_env : env) (op : operation) : io value :=
  match op with
  | List => listTasks process_env
  | Create title => createTask process_env title
  | Update taskId patch => updateTask process_env taskId patch
  | Toggle taskId => toggleTask process_env taskId
  | Delete taskId => _ <- deleteTask process_env taskId ;; ret VUndefined
  end.

(** The operations that go through [requestJson]. *)
Definition returns_json (op : operation) : bool :=
  match op with
  | Delete _ => false
  | _ => true
  end.

(** Method, path and [fetch] options of each operation, as the table of
    operations gives them; [request_of_perform] below shows that they are
    what the code sends. *)
Definition op_method (op : operation) : jsstring :=
  match op with
  | List => js "GET"
  | Create _ | Toggle _ => js "POST"
  | Update _ _ => js "PUT"
  | Delete _ => js "DELETE"
  end.

Definition op_path (op : operation) : jsstring :=
  match op with
  | List | Create _ => js "/tasks"
  | Update taskId _ | Delete taskId => js "/tasks/" ++ string_of_Z taskId
  | Toggle taskId => js "/tasks/" ++ string_of_Z taskId ++ js "/toggle"
  end.

Definition op_options (op : operation) : options :=
  match op with
  | List => no_options
  | Create title =>
      {| method := Some (js "POST"); headers := json_headers;
         body := JsonBody (VObj [ (js "title", title) ]) |}
  | Update _ patch =>
      {| method := Some (js "PUT"); headers := json_headers;
         body := JsonBody patch |}
  | Toggle _ => {| method := Some (js "POST"); headers := []; body := NoBody |}
  | Delete _ => {| method := Some (js "DELETE"); headers := []; body := NoBody |}
  end.

(** The lower-cased content type [safeReadBody] inspects. *)
Definition lowered_content_type (res : Response) : jsstring :=
  toLowerCase (or_string (headers_get_content_type res) (js "")).

(** The response's content type indicates JSON. *)
Definition json_response (res : Response) : bool :=
  is_json_content_type (lowered_content_type res).

(** [s] contains [sub] as a substring. *)
Definition contains (s sub : jsstring) : Prop :=
  exists pre post, s = pre ++ sub ++ post.

End Client.

(** ** Base URL resolution as the specification words it *)

Module BaseUrlSpec.
Import JS.

(** The first non-empty value of an ordered list of sources, the empty
    string when there is none. *)
Fixpoint first_non_empty (sources : list (option jsstring)) : jsstring :=
  match sources with
  | [] => []
  | Some (c :: s) :: _ => c :: s
  | _ :: rest => first_non_empty rest
  end.

(** A string without its trailing slash, when it ends with one. *)
Definition strip_trailing_slash (s : jsstring) : jsstring :=
  match rev s with
  | 47%N :: r => rev r
  | _ => s
  end.

Definition resolve_base (sources : list (option jsstring)) : jsstring :=
  strip_trailing_slash (first_non_empty sources).

End BaseUrlSpec.

(** ** The earlier REST client ([src/unnamed/part_000]) *)

Module PlainTasksApi.
Import JS Net.
Import TasksApi (env, REACT_APP_API_BASE_URL, json_headers, task_path).
Local Open Scope io_scope.

Definition API_BASE (process_env : env) : jsstring :=
  replace_trailing_slash
    (or_string (REACT_APP_API_BASE_URL process_env) (js "")).

Definition url (process_env : env) (path : jsstring) : jsstring :=
  API_BASE process_env ++ path.

(** [fetch(url("/tasks"))]: no options. *)
Definition listTasks (process_env : env) : io value :=
  res <- fetch (url process_env (js "/tasks")) no_options ;;
  if negb (ok res) then
    throw (Error (js "Failed to list tasks (" ++ string_of_N (status res)
                    ++ js ")"))
  else Done (json res).

Definition createTask (process_env : env) (title : value) : io value :=
  res <- fetch (url process_env (js "/tasks"))
           {| method := Some (js "POST");
              headers := json_headers;
              body := JsonBody (VObj [ (js "title", title) ]) |} ;;
  if negb (ok res) then
    throw (Error (js "Failed to create task (" ++ string_of_N (status res)
                    ++ js ")"))
  else Done (json res).

Definition updateTask (process_env : env) (taskId : Z) (patch : value)
  : io value :=
  res <- fetch (url process_env (task_path taskId))
           {| method := Some (js "PUT");
              headers := json_headers;
              body := JsonBody patch |} ;;
  if negb (ok res) then
    throw (Error (js "Failed to update task (" ++ string_of_N (status res)
                    ++ js ")"))
  else Done (json res).

Definition toggleTask (process_env : env) (taskId : Z) : io value :=
  res <- fetch (url process_env (task_path taskId ++ js "/toggle"))
           {| method := Some (js "POST"); headers := []; body := NoBody |} ;;
  if negb (ok res) then
    throw (Error (js "Failed to toggle task (" ++ string_of_N (status res)
                    ++ js ")"))
  else Done (json res).

Definition deleteTask (process_env : env) (taskId : Z) : io unit :=
  res <- fetch (url process_env (task_path taskId))
           {| method := Some (js "DELETE"); headers := []; body := NoBody |} ;;
  if negb (ok res) then
    throw (Error (js "Failed to delete task (" ++ string_of_N (status res)
                    ++ js ")"))
  else ret tt.

(** Calling an operation of this client and awaiting it. *)
Definition perform (process_env : env) (op : Client.operation) : io value :=
  match op with
  | Client.List => listTasks process_env
  | Client.Create title => createTask process_env title
  | Client.Update taskId patch => updateTask process_env taskId patch
  | Client.Toggle taskId => toggleTask process_env taskId
  | Client.Delete taskId => _ <- deleteTask process_env taskId ;; ret VUndefined
  end.

(** What each operation says it failed to do. *)
Definition failed_to (op : Client.operation) : jsstring :=
  match op with
  | Client.List => js "Failed to list tasks"
  | Client.Create _ => js "Failed to create task"
  | Client.Update _ _ => js "Failed to update task"
  | Client.Toggle _ => js "Failed to toggle task"
  | Client.Delete _ => js "Failed to delete task"
  end.

End PlainTasksApi.

(** ** JSON content types as the specification words them *)

Module ContentTypeSpec.
Import JS.

(** The part of a header value before its first semicolon. *)
Fixpoint before_semicolon (s : jsstring) : jsstring :=
  match s with
  | [] => []
  | c :: s' => if (c =? 59)%N then [] else c :: before_semicolon s'
  end.

(** The media type of a header value: what stands before the parameters,
    without surrounding white space, in lower case. *)
Definition media_type (h : jsstring) : jsstring :=
  toLowerCase (trim (before_semicolon h)).

Definition endsWith (s suffix : jsstring) : bool :=
  startsWith (rev s) (rev suffix).

(** The content type indicates a JSON media type: [application/json]
    exactly, or a type with the [+json] suffix. *)
Definition indicates_json (h : option jsstring) : bool :=
  match h with
  | None => false
  | Some v =>
      jsstring_eqb (media_type v) (js "application/json")
      || endsWith (media_type v) (js "+json")
  end.

End ContentTypeSpec.

Import JS Net TasksApi Client.

(** ** Predicates on values and concrete responses *)

(** An object whose own [__parse_error] property is truthy. *)
Definition marked (v : value) : bool :=
  match v with
  | VObj fields => truthy (lookup (js "__parse_error") fields)
  | _ => false
  end.

(** No variable of the environment is set. *)
Definition no_env : env :=
  {| REACT_APP_API_BASE := None; REACT_APP_API_BASE_URL := None |}.

(** A string between double quotes, as JSON text writes it. *)
Definition quoted (s : jsstring) : jsstring := [34%N] ++ s ++ [34%N].

(** A network that answers every request with one response. *)
Definition answer (res : Response) : network := fun _ _ => Returned res.

(** Status 200, [application/json], body ["pong"]: a JSON string. *)
Definition json_string_response : Response :=
  {| status := 200;
     content_type := Some "application/json"%string;
     body_json := Returned (VStr (js "pong"));
     body_text := Returned (quoted (js "pong")) |}.

(** Status 500, [text/html], an HTML error page. *)
Definition html_error_response : Response :=
  {| status := 500;
     content_type := Some "text/html; charset=utf-8"%string;
     body_json := Thrown (Error (js "Unexpected token <"));
     body_text := Returned (js "<!DOCTYPE html><html><body>Error</body></html>") |}.

(** Status 200, [text/html], the page of a development server. *)
Definition html_page_response : Response :=
  {| status := 200;
     content_type := Some "text/html"%string;
     body_json := Thrown (Error (js "Unexpected token <"));
     body_text := Returned (js "<!DOCTYPE html><html><body>App</body></html>") |}.

(** Status 200, [application/json], a body cut short. *)
Definition truncated_json_response : Response :=
  {| status := 200;
     content_type := Some "application/json"%string;
     body_json := Thrown {| name := js "SyntaxError";
                            message := js "Unexpected end of JSON input" |};
     body_text := Returned (js "{") |}.

(** The captured body is a string that starts with [<!DOCTYPE] once it is
    trimmed: the condition under which [toHelpfulErrorMessage] gives the
    HTML hint. *)
Definition html_document (body : value) : bool :=
  match body with
  | VStr s => startsWith (trim s) (js "<!DOCTYPE")
  | _ => false
  end.

(** Status 500, [text/html], an HTML page after a leading space. *)
Definition indented_html_response : Response :=
  {| status := 500;
     content_type := Some "text/html"%string;
     body_json := Thrown (Error (js "Unexpected token <"));
     body_text := Returned (js " <!DOCTYPE html>") |}.

(** Status 404, [application/json], body [{error: "not found"}]. *)
Definition not_found_response : Response :=
  {| status := 404;
     content_type := Some "application/json"%string;
     body_json := Returned (VObj [ (js "error", VStr (js "not found")) ]);
     body_text := Returned (js "{" ++ quoted (js "error") ++ js ":"
                              ++ quoted (js "not found") ++ js "}") |}.

(** Status 204, no content type, an empty body. *)
Definition no_content_response : Response :=
  {| status := 204;
     content_type := None;
     body_json := Thrown {| name := js "SyntaxError";
                            message := js "Unexpected end of JSON input" |};
     body_text := Returned (js "") |}.

(** The task [{id: 7, title: "Buy milk", is_completed: false}]. *)
Definition created_task : value :=
  VObj [ (js "id", VNum 7%float);
         (js "title", VStr (js "Buy milk"));
         (js "is_completed", VBool false) ].

(** Status 201, [application/json], the created task. *)
Definition created_response : Response :=
  {| status := 201;
     content_type := Some "application/json"%string;
     body_json := Returned created_task;
     body_text :=
       Returned (js "{" ++ quoted (js "id") ++ js ":7,"
                   ++ quoted (js "title") ++ js ":" ++ quoted (js "Buy milk")
                   ++ js "," ++ quoted (js "is_completed") ++ js ":false}") |}.

(** The JSON object [{__parse_error: true, id: 7}], a value a server can
    send. *)
Definition colliding_value : value :=
  VObj [ (js "__parse_error", VBool true); (js "id", VNum 7%float) ].

(** Status 200, [text/plain; note=application/json], the body [[]]: a
    text type whose parameter mentions JSON. *)
Definition annotated_text_response : Response :=
  {| status := 200;
     content_type := Some "text/plain; note=application/json"%string;
     body_json := Returned (VArr []);
     body_text := Returned (js "[]") |}.

(** Status 200, [application/json-seq], a JSON text sequence: the record
    separator, a JSON text, a line feed. *)
Definition json_seq_response : Response :=
  {| status := 200;
     content_type := Some "application/json-seq"%string;
     body_json := Thrown {| name := js "SyntaxError";
                            message := js "Unexpected token" |};
     body_text := Returned ([30%N] ++ js "[]" ++ [10%N]) |}.

(** A string of white space only (the empty string included). *)
Definition blank (s : jsstring) : bool := forallb is_white_space s.

(** The base URL variable is not set, or set to the empty string. *)
Definition unset (x : option jsstring) : bool :=
  match x with
  | Some (_ :: _) => false
  | Some [] | None => true
  end.

(** The order of the list on screen: a task that is not completed comes
    before a completed one, and of two tasks with the same completion state
    the one with the greater id comes first. *)
Definition before (a b : App.Task) : Prop :=
  (App.is_completed a = false /\ App.is_completed b = true)
  \/ (App.is_completed a = App.is_completed b /\ (App.id b <= App.id a)%Z).

(** Every task with the given id replaced by the task the server
    returned. *)
Definition replaced (taskId : Z) (updated : App.Task) (l : list App.Task)
  : list App.Task :=
  map (fun t => if (App.id t =? taskId)%Z then updated else t) l.

(** ** A session of the UI on the client, with a server that answers with
    an HTML error page *)

Module Session.
Import App.
Local Open Scope io_scope.

(** The client operations as the component calls them, on [no_env].  The
    server of this session fails every request, so no response is ever
    read as a task. *)
Definition not_a_task : io Task := throw (TypeError (js "not a task")).

Definition createTask (title : jsstring) : io Task :=
  _ <- TasksApi.createTask no_env (VStr title) ;; not_a_task.

Definition updateTask (taskId : Z) (title : jsstring) : io Task :=
  _ <- TasksApi.updateTask no_env taskId (VObj [ (js "title", VStr title) ]) ;;
  not_a_task.

Definition toggleTask (taskId : Z) : io Task :=
  _ <- TasksApi.toggleTask no_env taskId ;; not_a_task.

Definition deleteTask (taskId : Z) : io unit :=
  TasksApi.deleteTask no_env taskId.

Definition net : network := answer html_error_response.

(** Two tasks on screen, a new title typed, the first task being
    edited. *)
Definition shown : state :=
  {| tasks := [ {| id := 2; title := js "Call the bank"; is_completed := false |};
                {| id := 1; title := js "Buy milk"; is_completed := true |} ];
     newTitle := js " Walk the dog ";
     loading := false;
     error := js "";
     editingId := Some 1%Z;
     editingTitle := js "Buy oat milk" |}.

Definition failed (method_path : jsstring) : JS.error :=
  Error (method_path ++ js " failed (500). " ++ html_hint).

End Session.

(** Status 200, [Application/Problem+JSON; charset=utf-8], the created
    task. *)
Definition problem_json_response : Response :=
  {| status := 200;
     content_type := Some "Application/Problem+JSON; charset=utf-8"%string;
     body_json := Returned created_task;
     body_text :=
       Returned (js "{" ++ quoted (js "id") ++ js ":7,"
                   ++ quoted (js "title") ++ js ":" ++ quoted (js "Buy milk")
                   ++ js "," ++ quoted (js "is_completed") ++ js ":false}") |}.

(** ** A session of the UI with a server that accepts every request *)

Module Served.
Import App.

(** The server's answers as the component receives them: the created task
    gets id 3, a toggled or edited task comes back whole. *)
Definition listTasks : io (list Task) :=
  ret [ {| id := 1; title := js "Buy milk"; is_completed := true |};
        {| id := 2; title := js "Call the bank"; is_completed := false |} ].

Definition createTask (title : jsstring) : io Task :=
  ret {| id := 3; title := title; is_completed := false |}.

Definition updateTask (taskId : Z) (title : jsstring) : io Task :=
  ret {| id := taskId; title := title; is_completed := true |}.

Definition toggleTask (taskId : Z) : io Task :=
  ret {| id := taskId; title := js "Buy milk"; is_completed := false |}.

Definition deleteTask (taskId : Z) : io unit := ret tt.

Definition net : network := answer no_content_response.

End Served.

(** ** The definitions on concrete inputs *)

Example trim_spaces : trim (js "  Walk the dog ") = js "Walk the dog".
Proof. reflexivity. Qed.

Example task_path_3 : task_path 3 = js "/tasks/3".
Proof. reflexivity. Qed.

Example content_type_with_charset :
  is_json_content_type (toLowerCase (js "Application/JSON; charset=utf-8"))
  = true.
Proof. reflexivity. Qed.

Example content_type_problem_json :
  is_json_content_type (toLowerCase (js "application/problem+json")) = true.
Proof. reflexivity. Qed.

Example content_type_html :
  is_json_content_type (toLowerCase (js "text/html")) = false.
Proof. reflexivity. Qed.

Example json_media_types :
  ContentTypeSpec.indicates_json (Some (js "application/json")) = true
  /\ ContentTypeSpec.indicates_json
       (Some (js "Application/Problem+JSON; charset=utf-8")) = true
  /\ ContentTypeSpec.indicates_json (Some (js "text/html")) = false
  /\ ContentTypeSpec.indicates_json None = false.
Proof. repeat split. Qed.

Example no_content_type :
  safeReadBody no_content_response = VStr (js "").
Proof. reflexivity. Qed.

Example sortTasks_completed_last :
  App.sortTasks
    [ {| App.id := 1; App.title := js "a"; App.is_completed := true |};
      {| App.id := 2; App.title := js "b"; App.is_completed := false |};
      {| App.id := 3; App.title := js "c"; App.is_completed := false |} ]
  = [ {| App.id := 3; App.title := js "c"; App.is_completed := false |};
      {| App.id := 2; App.title := js "b"; App.is_completed := false |};
      {| App.id := 1; App.title := js "a"; App.is_completed := true |} ].
Proof. reflexivity. Qed.

(** ** Strings *)

Section Strings.

Lemma startsWith_app (p t : jsstring) : startsWith (p ++ t) p = true.
Proof.
  induction p as [|c p IH]; simpl.
  - reflexivity.
  - now rewrite N.eqb_refl, IH.
Qed.

Lemma startsWith_inv (p s : jsstring) :
  startsWith s p = true -> exists t, s = p ++ t.
Proof.
  revert s; induction p as [|c p IH]; intros s H.
  - now exists s.
  - destruct s as [|d s]; simpl in H; [discriminate|].
    apply andb_true_iff in H as [Hc Hs].
    apply N.eqb_eq in Hc; subst d.
    destruct (IH _ Hs) as [t ->].
    now exists t.
Qed.

(** Trimming the start stops at the first code unit that is not white
    space. *)
Lemma trimStart_keeps (c : code_unit) (s : jsstring) :
  is_white_space c = false -> trimStart (c :: s) = c :: s.
Proof. intros H; simpl; now rewrite H. Qed.

Lemma trimStart_app_keeps (a b : jsstring) (c : code_unit) :
  is_white_space c = false ->
  exists a', trimStart (a ++ c :: b) = a' ++ c :: b.
Proof.
  intros Hc; induction a as [|x a IH]; simpl.
  - exists []; now rewrite Hc.
  - destruct (is_white_space x).
    + exact IH.
    + now exists (x :: a).
Qed.

(** Trimming the end keeps everything up to a code unit that is not white
    space. *)
Lemma trimEnd_app_keeps (p t : jsstring) (c : code_unit) :
  is_white_space c = false ->
  exists t', trimEnd ((p ++ [c]) ++ t) = (p ++ [c]) ++ t'.
Proof.
  intros Hc; unfold trimEnd.
  rewrite rev_app_distr, rev_app_distr; simpl.
  destruct (trimStart_app_keeps (rev t) (rev p) c Hc) as [a' ->].
  exists (rev a').
  rewrite rev_app_distr; simpl.
  now rewrite rev_involutive, <- app_assoc.
Qed.

(** A prefix that starts and ends with code units that are not white space
    survives [trim]. *)
Lemma trim_keeps_prefix (c d : code_unit) (p s : jsstring) :
  is_white_space c = false -> is_white_space d = false ->
  startsWith s (c :: p ++ [d]) = true ->
  startsWith (trim s) (c :: p ++ [d]) = true.
Proof.
  intros Hc Hd H.
  destruct (startsWith_inv _ _ H) as [t ->].
  unfold trim.
  change ((c :: p ++ [d]) ++ t) with (c :: (p ++ [d]) ++ t).
  rewrite (trimStart_keeps c _ Hc).
  change (c :: (p ++ [d]) ++ t) with (((c :: p) ++ [d]) ++ t).
  destruct (trimEnd_app_keeps (c :: p) t d Hd) as [t' ->].
  apply (startsWith_app ((c :: p) ++ [d]) t').
Qed.

Lemma doctype_survives_trim (s : jsstring) :
  startsWith s (js "<!DOCTYPE") = true ->
  startsWith (trim s) (js "<!DOCTYPE") = true.
Proof.
  apply (trim_keeps_prefix 60%N 69%N (js "!DOCTYP") s); reflexivity.
Qed.

Lemma contains_intro (pre sub post : jsstring) :
  contains (pre ++ sub ++ post) sub.
Proof. now exists pre, post. Qed.

Lemma contains_prefix (sub post : jsstring) : contains (sub ++ post) sub.
Proof. now exists [], post. Qed.

Lemma contains_app_r (pre s sub : jsstring) :
  contains s sub -> contains (pre ++ s) sub.
Proof.
  intros [a [b ->]]. exists (pre ++ a), b. now rewrite <- app_assoc.
Qed.

Lemma contains_app_l (s post sub : jsstring) :
  contains s sub -> contains (s ++ post) sub.
Proof.
  intros [a [b ->]]. exists a, (b ++ post). now rewrite <- !app_assoc.
Qed.

End Strings.

(** ** Reading the body *)

Section ReadBody.

Variable res : Response.

Lemma safeReadBody_parsed (v : value) :
  json_response res = true -> json res = Returned v -> safeReadBody res = v.
Proof.
  unfold json_response, lowered_content_type, safeReadBody.
  now intros -> ->.
Qed.

Lemma safeReadBody_unparsable (e : error) :
  json_response res = true -> json res = Thrown e ->
  safeReadBody res = parse_failure (js "") e.
Proof.
  unfold json_response, lowered_content_type, safeReadBody.
  now intros -> ->.
Qed.

Lemma safeReadBody_text :
  json_response res = false ->
  safeReadBody res = VStr (catch_default (body_text res) (js "")).
Proof.
  unfold json_response, lowered_content_type, safeReadBody.
  now intros ->.
Qed.

(** Without a JSON content type the held body is a string, whatever the
    body and whether or not it can be read. *)
Lemma safeReadBody_text_is_string :
  json_response res = false -> is_string (safeReadBody res) = true.
Proof. intros H; now rewrite safeReadBody_text. Qed.

End ReadBody.

(** [body && body.__parse_error] never throws, and it is truthy exactly on
    the marked objects. *)
Lemma parse_error_mark_marked (v : value) :
  exists m, parse_error_mark v = Returned m /\ truthy m = marked v.
Proof.
  unfold parse_error_mark.
  destruct v as [| |b|n|s|items|fields]; simpl;
    try (eexists; split; [reflexivity|reflexivity]).
  - destruct b; eexists; split; reflexivity.
  - destruct (negb (is_zero n || is_nan n)) eqn:E; eexists; split;
      try reflexivity; simpl; exact E.
  - destruct s; eexists; split; reflexivity.
Qed.

Lemma parse_failure_marked (raw : jsstring) (e : error) :
  marked (parse_failure raw e) = true.
Proof. reflexivity. Qed.

Lemma parse_failure_not_string (raw : jsstring) (e : error) :
  is_string (parse_failure raw e) = false.
Proof. reflexivity. Qed.

(** ** [requestJson] on a network that answers the request *)

Section RequestJson.

Variable process_env : env.
Variable net : network.
Variables (path : jsstring) (opts : options) (res : Response).
Hypothesis answered : net (url process_env path) opts = Returned res.

(** The request is sent once, to the base URL followed by the path, with
    the caller's options. *)
Lemma requestJson_requests (net' : network) :
  requests net' (requestJson process_env path opts)
  = [ (API_BASE process_env ++ path, opts) ].
Proof.
  unfold requestJson, fetch, url; simpl.
  destruct (net' _ _) as [r|e]; [|reflexivity].
  f_equal.
  destruct (negb (ok r)); [reflexivity|].
  destruct (is_string _); [reflexivity|].
  destruct (parse_error_mark_marked (safeReadBody r)) as [m [-> _]]; simpl.
  now destruct (truthy m).
Qed.

Lemma requestJson_failed :
  ok res = false ->
  run net (requestJson process_env path opts)
  = Thrown (Error (toHelpfulErrorMessage (request_method opts) path
                     (status res) (safeReadBody res))).
Proof.
  intros Hok. unfold requestJson, fetch; simpl.
  now rewrite answered; simpl; rewrite Hok.
Qed.

Lemma requestJson_string :
  ok res = true -> is_string (safeReadBody res) = true ->
  run net (requestJson process_env path opts)
  = Thrown (Error (non_json_message (request_method opts) path)).
Proof.
  intros Hok Hs. unfold requestJson, fetch; simpl.
  now rewrite answered; simpl; rewrite Hok, Hs.
Qed.

Lemma requestJson_marked :
  ok res = true -> is_string (safeReadBody res) = false ->
  marked (safeReadBody res) = true ->
  run net (requestJson process_env path opts)
  = Thrown (Error (invalid_json_message (request_method opts) path)).
Proof.
  intros Hok Hs Hm. unfold requestJson, fetch; simpl.
  rewrite answered; simpl; rewrite Hok, Hs; simpl.
  destruct (parse_error_mark_marked (safeReadBody res)) as [m [-> Hmm]]; simpl.
  now rewrite Hmm, Hm.
Qed.

Lemma requestJson_returned :
  ok res = true -> is_string (safeReadBody res) = false ->
  marked (safeReadBody res) = false ->
  run net (requestJson process_env path opts) = Returned (safeReadBody res).
Proof.
  intros Hok Hs Hm. unfold requestJson, fetch; simpl.
  rewrite answered; simpl; rewrite Hok, Hs; simpl.
  destruct (parse_error_mark_marked (safeReadBody res)) as [m [-> Hmm]]; simpl.
  now rewrite Hmm, Hm.
Qed.

End RequestJson.

(** ** The operations *)

Lemma perform_requestJson (process_env : env) (op : operation) :
  returns_json op = true ->
  perform process_env op = requestJson process_env (op_path op) (op_options op).
Proof.
  destruct op; intros H; try discriminate H; reflexivity.
Qed.

Lemma request_method_op (op : operation) :
  request_method (op_options op) = op_method op.
Proof. now destruct op. Qed.

Lemma perform_delete (process_env : env) (net : network) (taskId : Z)
  (res : Response) :
  net (url process_env (op_path (Delete taskId))) (op_options (Delete taskId))
    = Returned res ->
  run net (perform process_env (Delete taskId))
  = if ok res then Returned VUndefined
    else Thrown (Error (toHelpfulErrorMessage (js "DELETE")
                          (op_path (Delete taskId)) (status res)
                          (safeReadBody res))).
Proof.
  intros H.
  change (net (url process_env (task_path taskId)) delete_options
          = Returned res) in H.
  unfold perform, deleteTask, fetch; cbn [bind run ret throw].
  rewrite H; cbn [bind run ret throw].
  now destruct (ok res).
Qed.

(** ** What the operations return and throw *)

(** C1 (the code departs from it): a response with status 200, content
    type [application/json] and the body ["pong"], which parses to the JSON
    string [pong], is not returned by [listTasks]: [requestJson] takes the
    decoded string for a text body and throws the non-JSON error. *)
Theorem json_string_is_rejected (process_env : env) :
  ok json_string_response = true
  /\ json_response json_string_response = true
  /\ json json_string_response = Returned (VStr (js "pong"))
  /\ run (answer json_string_response) (perform process_env List)
     = Thrown (Error (js "Unexpected non-JSON response for GET /tasks. Check API base URL configuration.")).
Proof. repeat split. Qed.

Lemma toHelpfulErrorMessage_form (method path : jsstring) (st : N) (b : value) :
  exists hint,
    (hint = html_hint \/ hint = other_hint)
    /\ toHelpfulErrorMessage method path st b
       = method ++ js " " ++ path ++ js " failed (" ++ string_of_N st
           ++ js "). " ++ hint.
Proof.
  unfold toHelpfulErrorMessage.
  destruct b; try (exists other_hint; split; [now right|reflexivity]).
  destruct (startsWith _ _).
  - exists html_hint; split; [now left|reflexivity].
  - exists other_hint; split; [now right|reflexivity].
Qed.

(** Every operation fails on a non-success status with the error that
    [toHelpfulErrorMessage] composes from its method and path. *)
Lemma perform_failed (process_env : env) (net : network) (op : operation)
  (res : Response) :
  net (url process_env (op_path op)) (op_options op) = Returned res ->
  ok res = false ->
  run net (perform process_env op)
  = Thrown (Error (toHelpfulErrorMessage (op_method op) (op_path op)
                     (status res) (safeReadBody res))).
Proof.
  intros Hnet Hok.
  destruct (returns_json op) eqn:Hj.
  - rewrite perform_requestJson by exact Hj.
    rewrite (requestJson_failed process_env net _ _ res Hnet Hok).
    now rewrite request_method_op.
  - destruct op; try discriminate Hj.
    rewrite (perform_delete process_env net taskId res Hnet).
    now rewrite Hok.
Qed.

(** C2: on a non-success status every operation throws, and the message is
    [{METHOD} {PATH} failed ({STATUS}). ] followed by one of the two hints,
    so it contains the method, the path and the status; the outcome does
    not depend on the content type or on whether the body parses. *)
Theorem non_success_status_fails (process_env : env) (net : network)
  (op : operation) (res : Response) :
  net (url process_env (op_path op)) (op_options op) = Returned res ->
  ok res = false ->
  exists msg hint,
    run net (perform process_env op) = Thrown (Error msg)
    /\ msg = op_method op ++ js " " ++ op_path op ++ js " failed ("
               ++ string_of_N (status res) ++ js "). " ++ hint
    /\ (hint = html_hint \/ hint = other_hint)
    /\ contains msg (op_method op)
    /\ contains msg (op_path op)
    /\ contains msg (string_of_N (status res)).
Proof.
  intros Hnet Hok.
  destruct (toHelpfulErrorMessage_form (op_method op) (op_path op)
              (status res) (safeReadBody res)) as [hint [Hh Hm]].
  eexists; exists hint.
  split; [rewrite (perform_failed process_env net op res Hnet Hok), Hm; reflexivity|].
  split; [reflexivity|].
  split; [exact Hh|].
  split; [apply contains_prefix|].
  split.
  - apply contains_app_r, contains_app_r, contains_prefix.
  - do 4 apply contains_app_r. apply contains_prefix.
Qed.

Lemma non_success_status_fails_witness :
  ok html_error_response = false
  /\ exists msg hint,
       run (answer html_error_response) (perform no_env (Toggle 4))
       = Thrown (Error msg)
       /\ msg = js "POST" ++ js " " ++ op_path (Toggle 4) ++ js " failed ("
                  ++ string_of_N 500 ++ js "). " ++ hint
       /\ (hint = html_hint \/ hint = other_hint)
       /\ contains msg (js "POST")
       /\ contains msg (op_path (Toggle 4))
       /\ contains msg (string_of_N 500).
Proof.
  split; [reflexivity|].
  apply (non_success_status_fails no_env (answer html_error_response)
           (Toggle 4) html_error_response); reflexivity.
Defined.

(** C3, as stated, fails: a content type that is not a JSON media type
    but has [application/json] somewhere in its value is read as JSON.
    With [text/plain; note=application/json] and a body that parses,
    [listTasks] returns the value; with [application/json-seq] and a body
    that does not parse, it throws the invalid-JSON error, not the non-JSON
    one. *)
Lemma substring_content_type_is_read_as_json :
  (ok annotated_text_response = true
   /\ ContentTypeSpec.indicates_json
        (headers_get_content_type annotated_text_response) = false
   /\ run (answer annotated_text_response) (perform no_env List)
      = Returned (VArr []))
  /\ (ok json_seq_response = true
      /\ ContentTypeSpec.indicates_json
           (headers_get_content_type json_seq_response) = false
      /\ run (answer json_seq_response) (perform no_env List)
         = Thrown (Error (js "Invalid JSON response for GET /tasks. Check API base URL configuration."))).
Proof. repeat split. Qed.

(** C3, amended: on a success status with a content type whose lower-cased
    value contains neither [application/json] nor [+json] (a missing header
    counts as empty), the operations that return JSON throw the non-JSON
    error, whose message names the method and the path; for [GET /tasks]
    answered with 200 and [text/html] it starts with
    [Unexpected non-JSON response for GET /tasks]. *)
Theorem non_json_success_fails (process_env : env) (net : network)
  (op : operation) (res : Response) :
  returns_json op = true ->
  net (url process_env (op_path op)) (op_options op) = Returned res ->
  ok res = true ->
  json_response res = false ->
  run net (perform process_env op)
  = Thrown (Error (non_json_message (op_method op) (op_path op)))
  /\ contains (non_json_message (op_method op) (op_path op))
       (js "Unexpected non-JSON response")
  /\ contains (non_json_message (op_method op) (op_path op))
       (js "Unexpected non-JSON response for " ++ op_method op ++ js " "
          ++ op_path op).
Proof.
  intros Hj Hnet Hok Hct.
  split; [|split].
  - rewrite perform_requestJson by exact Hj.
    rewrite <- request_method_op.
    apply (requestJson_string process_env net _ _ res Hnet Hok).
    now apply safeReadBody_text_is_string.
  - exists [], (js " for " ++ op_method op ++ js " " ++ op_path op
                  ++ js ". Check API base URL configuration.").
    reflexivity.
  - unfold non_json_message.
    exists [], (js ". Check API base URL configuration.").
    now rewrite <- !app_assoc.
Qed.

Lemma non_json_success_fails_witness :
  (ok html_page_response = true /\ json_response html_page_response = false)
  /\ run (answer html_page_response) (perform no_env List)
     = Thrown (Error (js "Unexpected non-JSON response for GET /tasks. Check API base URL configuration."))
  /\ contains (js "Unexpected non-JSON response for GET /tasks. Check API base URL configuration.")
       (js "Unexpected non-JSON response")
  /\ contains (js "Unexpected non-JSON response for GET /tasks. Check API base URL configuration.")
       (js "Unexpected non-JSON response for GET /tasks").
Proof.
  split; [split; reflexivity|].
  apply (non_json_success_fails no_env (answer html_page_response) List
           html_page_response); reflexivity.
Defined.

Lemma toHelpfulErrorMessage_hint (method path : jsstring) (st : N) (b : value) :
  toHelpfulErrorMessage method path st b
  = method ++ js " " ++ path ++ js " failed (" ++ string_of_N st ++ js "). "
      ++ (if html_document b then html_hint else other_hint).
Proof. now destruct b. Qed.

(** C4, as stated, fails: the captured body [ <!DOCTYPE html>] does not
    begin with [<!DOCTYPE], and the hint is the HTML one, not
    [Unexpected response from server.] *)
Lemma indented_html_gets_html_hint :
  ok indented_html_response = false
  /\ safeReadBody indented_html_response = VStr (js " <!DOCTYPE html>")
  /\ startsWith (js " <!DOCTYPE html>") (js "<!DOCTYPE") = false
  /\ run (answer indented_html_response) (perform no_env List)
     = Thrown (Error (js "GET /tasks failed (500). Received HTML instead of JSON. Check API base URL configuration."))
  /\ js "GET /tasks failed (500). Received HTML instead of JSON. Check API base URL configuration."
     <> js "GET /tasks failed (500). Unexpected response from server.".
Proof. repeat split. discriminate. Qed.

(** C4, amended: on a non-success status the hint is the HTML one exactly
    when the captured body is a string that begins with [<!DOCTYPE] after
    white space is trimmed from both ends, and [Unexpected response from
    server.] for any other captured body; a string that begins with
    [<!DOCTYPE] as it stands is such a body, and the message then contains
    [Received HTML instead of JSON]. *)
Theorem html_hint_after_trim (process_env : env) (net : network)
  (op : operation) (res : Response) :
  net (url process_env (op_path op)) (op_options op) = Returned res ->
  ok res = false ->
  exists msg,
    run net (perform process_env op) = Thrown (Error msg)
    /\ msg = op_method op ++ js " " ++ op_path op ++ js " failed ("
               ++ string_of_N (status res) ++ js "). "
               ++ (if html_document (safeReadBody res) then html_hint
                   else other_hint)
    /\ (forall s, safeReadBody res = VStr s ->
                  startsWith s (js "<!DOCTYPE") = true ->
                  html_document (safeReadBody res) = true
                  /\ contains msg (js "Received HTML instead of JSON")).
Proof.
  intros Hnet Hok.
  eexists; split; [|split].
  - rewrite (perform_failed process_env net op res Hnet Hok).
    now rewrite toHelpfulErrorMessage_hint.
  - reflexivity.
  - intros s Hs Hp.
    assert (Hd : html_document (safeReadBody res) = true)
      by (rewrite Hs; simpl; now apply doctype_survives_trim).
    split; [exact Hd|].
    rewrite Hd.
    do 6 apply contains_app_r.
    exists [], (js ". Check API base URL configuration."); reflexivity.
Qed.

Lemma html_hint_after_trim_witness :
  ok html_error_response = false
  /\ exists msg,
       run (answer html_error_response) (perform no_env (Delete 5))
       = Thrown (Error msg)
       /\ msg = js "DELETE" ++ js " " ++ op_path (Delete 5) ++ js " failed ("
                  ++ string_of_N 500 ++ js "). "
                  ++ (if html_document (safeReadBody html_error_response)
                      then html_hint else other_hint)
       /\ (forall s, safeReadBody html_error_response = VStr s ->
                     startsWith s (js "<!DOCTYPE") = true ->
                     html_document (safeReadBody html_error_response) = true
                     /\ contains msg (js "Received HTML instead of JSON")).
Proof.
  split; [reflexivity|].
  apply (html_hint_after_trim no_env (answer html_error_response) (Delete 5)
           html_error_response); reflexivity.
Defined.

(** C5: when the content type indicates JSON and [res.json()] rejects,
    [safeReadBody] does not throw but returns the marked object; on a
    success status the operation then throws the invalid-JSON error, and
    on a non-success status the status error, which is checked first. *)
Theorem unparsable_json_fails (process_env : env) (net : network)
  (op : operation) (res : Response) (e : error) :
  returns_json op = true ->
  net (url process_env (op_path op)) (op_options op) = Returned res ->
  json_response res = true ->
  json res = Thrown e ->
  safeReadBody res = parse_failure (js "") e
  /\ (ok res = true ->
      run net (perform process_env op)
      = Thrown (Error (invalid_json_message (op_method op) (op_path op)))
      /\ contains (invalid_json_message (op_method op) (op_path op))
           (js "Invalid JSON response"))
  /\ (ok res = false ->
      run net (perform process_env op)
      = Thrown (Error (op_method op ++ js " " ++ op_path op ++ js " failed ("
                         ++ string_of_N (status res) ++ js "). "
                         ++ other_hint))).
Proof.
  intros Hj Hnet Hct He.
  pose proof (safeReadBody_unparsable res e Hct He) as Hb.
  split; [exact Hb|split]; intros Hok.
  - split.
    + rewrite perform_requestJson by exact Hj.
      rewrite <- request_method_op.
      apply (requestJson_marked process_env net _ _ res Hnet Hok);
        rewrite Hb; reflexivity.
    + exists [], (js " for " ++ op_method op ++ js " " ++ op_path op
                    ++ js ". Check API base URL configuration.").
      reflexivity.
  - rewrite (perform_failed process_env net op res Hnet Hok).
    now rewrite toHelpfulErrorMessage_hint, Hb.
Qed.

Lemma unparsable_json_fails_witness :
  (ok truncated_json_response = true
   /\ json_response truncated_json_response = true)
  /\ safeReadBody truncated_json_response
     = parse_failure (js "")
         {| name := js "SyntaxError";
            message := js "Unexpected end of JSON input" |}
  /\ (ok truncated_json_response = true ->
      run (answer truncated_json_response)
        (perform no_env (Create (VStr (js "Buy milk"))))
      = Thrown (Error (invalid_json_message (js "POST") (js "/tasks")))
      /\ contains (invalid_json_message (js "POST") (js "/tasks"))
           (js "Invalid JSON response"))
  /\ (ok truncated_json_response = false ->
      run (answer truncated_json_response)
        (perform no_env (Create (VStr (js "Buy milk"))))
      = Thrown (Error (js "POST" ++ js " " ++ js "/tasks" ++ js " failed ("
                         ++ string_of_N 200 ++ js "). " ++ other_hint))).
Proof.
  split; [split; reflexivity|].
  apply (unparsable_json_fails no_env (answer truncated_json_response)
           (Create (VStr (js "Buy milk"))) truncated_json_response);
    reflexivity.
Defined.

(** C6: [updateTask(3, patch)] answered with status 404 and the JSON body
    [{error: "not found"}] throws exactly
    [PUT /tasks/3 failed (404). Unexpected response from server.]: the
    captured body is an object, not a string. *)
Theorem update_not_found (process_env : env) (net : network) (patch : value)
  (res : Response) :
  net (url process_env (js "/tasks/3")) (op_options (Update 3 patch))
    = Returned res ->
  status res = 404%N ->
  json_response res = true ->
  json res = Returned (VObj [ (js "error", VStr (js "not found")) ]) ->
  run net (updateTask process_env 3 patch)
  = Thrown (Error (js "PUT /tasks/3 failed (404). Unexpected response from server."))
  /\ is_string (safeReadBody res) = false.
Proof.
  intros Hnet Hst Hct Hb.
  assert (Hok : ok res = false) by (unfold ok; now rewrite Hst).
  pose proof (safeReadBody_parsed res _ Hct Hb) as Hbody.
  split; [|now rewrite Hbody].
  change (updateTask process_env 3 patch)
    with (perform process_env (Update 3 patch)).
  rewrite (perform_failed process_env net (Update 3 patch) res Hnet Hok).
  now rewrite Hbody, Hst.
Qed.

Lemma update_not_found_witness :
  run (answer not_found_response)
    (updateTask no_env 3 (VObj [ (js "title", VStr (js "Buy milk")) ]))
  = Thrown (Error (js "PUT /tasks/3 failed (404). Unexpected response from server."))
  /\ is_string (safeReadBody not_found_response) = false.
Proof.
  apply (update_not_found no_env (answer not_found_response)
           (VObj [ (js "title", VStr (js "Buy milk")) ]) not_found_response);
    reflexivity.
Defined.

(** C7: [deleteTask] returns no value on every success status, whatever
    the headers and the body, which it does not read; on a non-success
    status it reads the body and throws the error that
    [toHelpfulErrorMessage] composes for [DELETE] and the task's path, the
    same error [requestJson] throws for that request and response. *)
Theorem delete_outcome (process_env : env) (net : network) (taskId : Z)
  (res : Response) :
  net (url process_env (task_path taskId)) delete_options = Returned res ->
  (ok res = true -> run net (deleteTask process_env taskId) = Returned tt)
  /\ (ok res = false ->
      run net (deleteTask process_env taskId)
      = Thrown (Error (toHelpfulErrorMessage (js "DELETE") (task_path taskId)
                         (status res) (safeReadBody res)))
      /\ run net (requestJson process_env (task_path taskId) delete_options)
         = Thrown (Error (toHelpfulErrorMessage (js "DELETE")
                            (task_path taskId) (status res)
                            (safeReadBody res)))).
Proof.
  intros Hnet.
  split; intros Hok.
  - unfold deleteTask, fetch; cbn [bind run ret throw].
    now rewrite Hnet; cbn [bind run ret throw]; rewrite Hok.
  - split.
    + unfold deleteTask, fetch; cbn [bind run ret throw].
      now rewrite Hnet; cbn [bind run ret throw]; rewrite Hok.
    + apply (requestJson_failed process_env net _ _ res Hnet Hok).
Qed.

Lemma delete_outcome_witness :
  ok no_content_response = true
  /\ (ok no_content_response = true ->
      run (answer no_content_response) (deleteTask no_env 5) = Returned tt)
  /\ (ok no_content_response = false ->
      run (answer no_content_response) (deleteTask no_env 5)
      = Thrown (Error (toHelpfulErrorMessage (js "DELETE") (task_path 5)
                         (status no_content_response)
                         (safeReadBody no_content_response)))
      /\ run (answer no_content_response)
           (requestJson no_env (task_path 5) delete_options)
         = Thrown (Error (toHelpfulErrorMessage (js "DELETE") (task_path 5)
                            (status no_content_response)
                            (safeReadBody no_content_response)))).
Proof.
  split; [reflexivity|].
  apply (delete_outcome no_env (answer no_content_response) 5
           no_content_response); reflexivity.
Defined.

(** ** The base URL *)

Lemma replace_trailing_slash_snoc (s : jsstring) (c : code_unit) :
  replace_trailing_slash (s ++ [c])
  = if (c =? 47)%N then s else s ++ [c].
Proof.
  induction s as [|x s IH]; simpl.
  - reflexivity.
  - rewrite IH.
    destruct (s ++ [c]) eqn:E.
    + now destruct s.
    + now destruct (c =? 47)%N.
Qed.

(** The regular-expression replacement removes the trailing slash as the
    specification words it. *)
Lemma replace_trailing_slash_spec (s : jsstring) :
  replace_trailing_slash s = BaseUrlSpec.strip_trailing_slash s.
Proof.
  unfold BaseUrlSpec.strip_trailing_slash.
  destruct (rev s) as [|c r] eqn:E.
  - apply (f_equal (@rev _)) in E; rewrite rev_involutive in E.
    now subst s.
  - apply (f_equal (@rev _)) in E; rewrite rev_involutive in E.
    simpl in E; subst s.
    rewrite replace_trailing_slash_snoc.
    destruct (N.eqb_spec c 47) as [->|Hne]; [reflexivity|].
    destruct c as [|p]; [reflexivity|].
    repeat (destruct p as [p|p|]; try reflexivity);
      exfalso; apply Hne; reflexivity.
Qed.

Lemma first_non_empty_env (process_env : env) :
  or_string
    (or_undefined (REACT_APP_API_BASE process_env)
                  (REACT_APP_API_BASE_URL process_env))
    (js "")
  = BaseUrlSpec.first_non_empty
      [ REACT_APP_API_BASE process_env; REACT_APP_API_BASE_URL process_env ].
Proof.
  destruct process_env as [[[|c s]|] [[|d t]|]]; reflexivity.
Qed.

(** Every operation sends one request: to the base URL followed by the
    operation's path, with the operation's options. *)
Lemma request_of_perform (process_env : env) (net : network) (op : operation) :
  requests net (perform process_env op)
  = [ (API_BASE process_env ++ op_path op, op_options op) ].
Proof.
  destruct (returns_json op) eqn:Hj.
  - rewrite perform_requestJson by exact Hj.
    apply requestJson_requests.
  - destruct op; try discriminate Hj.
    unfold perform, deleteTask, fetch, url; cbn [bind requests ret throw].
    destruct (net _ _) as [r|e]; [|reflexivity].
    cbn [bind requests ret throw].
    now destruct (negb (ok r)).
Qed.

(** C8: the base URL is the first non-empty value among
    [REACT_APP_API_BASE] and [REACT_APP_API_BASE_URL], in that order, with
    its trailing slash removed; with no variable set it is the empty
    string and a request URL is the path alone; and every operation
    requests the base URL followed by its path. *)
Theorem base_url_resolution (process_env : env) :
  API_BASE process_env
  = BaseUrlSpec.resolve_base
      [ REACT_APP_API_BASE process_env; REACT_APP_API_BASE_URL process_env ]
  /\ API_BASE no_env = js ""
  /\ (forall path, url no_env path = path)
  /\ (forall net op,
        requests net (perform process_env op)
        = [ (API_BASE process_env ++ op_path op, op_options op) ]).
Proof.
  split; [|split; [reflexivity|split; [reflexivity|]]].
  - unfold API_BASE, BaseUrlSpec.resolve_base.
    now rewrite first_non_empty_env, replace_trailing_slash_spec.
  - intros net op; apply request_of_perform.
Qed.

Example api_base_prefers_first :
  API_BASE {| REACT_APP_API_BASE := Some (js "http://api:3001/");
              REACT_APP_API_BASE_URL := Some (js "http://other:8000") |}
  = js "http://api:3001".
Proof. reflexivity. Qed.

Example api_base_skips_empty :
  API_BASE {| REACT_APP_API_BASE := Some (js "");
              REACT_APP_API_BASE_URL := Some (js "http://other:8000") |}
  = js "http://other:8000".
Proof. reflexivity. Qed.

(** The pattern has no repetition: of two trailing slashes one is left. *)
Example api_base_strips_one_slash :
  API_BASE {| REACT_APP_API_BASE := Some (js "http://api:3001//");
              REACT_APP_API_BASE_URL := None |}
  = js "http://api:3001/".
Proof. reflexivity. Qed.

(** ** The mark of a parse failure and the server's data *)

(** A decoded value that is a marked object is thrown away as invalid
    JSON, although it was parsed. *)
Lemma marked_value_is_rejected (process_env : env) (net : network)
  (op : operation) (res : Response) (v : value) :
  returns_json op = true ->
  net (url process_env (op_path op)) (op_options op) = Returned res ->
  ok res = true -> json_response res = true -> json res = Returned v ->
  marked v = true ->
  run net (perform process_env op)
  = Thrown (Error (invalid_json_message (op_method op) (op_path op))).
Proof.
  intros Hj Hnet Hok Hct Hv Hm.
  pose proof (safeReadBody_parsed res v Hct Hv) as Hb.
  rewrite perform_requestJson by exact Hj.
  rewrite <- request_method_op.
  apply (requestJson_marked process_env net _ _ res Hnet Hok); rewrite Hb.
  - now destruct v.
  - exact Hm.
Qed.

(** X1: on a success status with a JSON content type, a decoded value
    that is neither a string nor an object with a truthy [__parse_error]
    property is returned as it was decoded by the operations that go
    through [requestJson]. *)
Lemma parsed_value_is_returned (process_env : env) (net : network)
  (op : operation) (res : Response) (v : value) :
  returns_json op = true ->
  net (url process_env (op_path op)) (op_options op) = Returned res ->
  ok res = true -> json_response res = true -> json res = Returned v ->
  is_string v = false -> marked v = false ->
  run net (perform process_env op) = Returned v.
Proof.
  intros Hj Hnet Hok Hct Hv Hs Hm.
  pose proof (safeReadBody_parsed res v Hct Hv) as Hb.
  rewrite perform_requestJson by exact Hj.
  rewrite <- Hb.
  apply (requestJson_returned process_env net _ _ res Hnet Hok);
    now rewrite Hb.
Qed.

Lemma parsed_value_is_returned_witness :
  (ok created_response = true /\ json_response created_response = true)
  /\ run (answer created_response)
       (perform no_env (Create (VStr (js "Buy milk"))))
     = Returned created_task.
Proof.
  split; [split; reflexivity|].
  apply (parsed_value_is_returned no_env (answer created_response)
           (Create (VStr (js "Buy milk"))) created_response created_task);
    reflexivity.
Defined.

(** C10: there is a response with a success status and a JSON content
    type whose body parses, to an object with a truthy [__parse_error]
    property, that every operation going through [requestJson] rejects
    with the invalid-JSON error instead of returning the value. *)
Theorem sentinel_collides_with_server_data :
  exists (res : Response) (fields : list (jsstring * value)),
    ok res = true
    /\ json_response res = true
    /\ json res = Returned (VObj fields)
    /\ truthy (lookup (js "__parse_error") fields) = true
    /\ forall (process_env : env) (net : network) (op : operation),
         returns_json op = true ->
         net (url process_env (op_path op)) (op_options op) = Returned res ->
         run net (perform process_env op)
         = Thrown (Error (invalid_json_message (op_method op) (op_path op)))
         /\ contains (invalid_json_message (op_method op) (op_path op))
              (js "Invalid JSON response")
         /\ run net (perform process_env op) <> Returned (VObj fields).
Proof.
  exists {| status := 200;
            content_type := Some "application/json"%string;
            body_json := Returned colliding_value;
            body_text := Returned (js "{}") |}.
  exists [ (js "__parse_error", VBool true); (js "id", VNum 7%float) ].
  repeat split.
  - eapply marked_value_is_rejected; eauto; reflexivity.
  - exists [], (js " for " ++ op_method op ++ js " " ++ op_path op
                  ++ js ". Check API base URL configuration.").
    reflexivity.
  - erewrite marked_value_is_rejected; eauto; try reflexivity.
    discriminate.
Qed.

(** ** The UI handlers when an operation fails *)

Section FailedOperation.
Import App.

Variable net : network.
Variable listTasks : io (list Task).
Variable createTask : jsstring -> io Task.
Variable updateTask : Z -> jsstring -> io Task.
Variable toggleTask : Z -> io Task.
Variable deleteTask : Z -> io unit.

(** Setting the error replaces the cleared error and touches no other
    part of the state. *)
Lemma setError_setError (a b : jsstring) (s : state) :
  setError a (setError b s) = setError a s.
Proof. reflexivity. Qed.

Lemma tasks_setError (a : jsstring) (s : state) :
  tasks (setError a s) = tasks s.
Proof. reflexivity. Qed.

Lemma handleAdd_failed (render s : state) (e : JS.error) :
  trim (newTitle render) <> [] ->
  run net (createTask (trim (newTitle render))) = Thrown e ->
  handleAdd net createTask render s
  = setError (message_or e (js "Failed to create task.")) s.
Proof.
  intros Hne Hrun. unfold handleAdd.
  destruct (trim (newTitle render)) as [|c title] eqn:E; [now elim Hne|].
  now rewrite Hrun.
Qed.

Lemma handleToggle_failed (id0 : Z) (s : state) (e : JS.error) :
  run net (toggleTask id0) = Thrown e ->
  handleToggle net toggleTask id0 s
  = setError (message_or e (js "Failed to toggle task.")) s.
Proof. intros Hrun. unfold handleToggle. now rewrite Hrun. Qed.

Lemma saveEdit_failed (render : state) (taskId : Z) (s : state) (e : JS.error) :
  trim (editingTitle render) <> [] ->
  run net (updateTask taskId (trim (editingTitle render))) = Thrown e ->
  saveEdit net updateTask render taskId s
  = setError (message_or e (js "Failed to update task.")) s.
Proof.
  intros Hne Hrun. unfold saveEdit.
  destruct (trim (editingTitle render)) as [|c title] eqn:E; [now elim Hne|].
  now rewrite Hrun.
Qed.

Lemma handleDelete_failed (render : state) (taskId : Z) (s : state) (e : JS.error) :
  run net (deleteTask taskId) = Thrown e ->
  handleDelete net deleteTask render taskId s
  = setError (message_or e (js "Failed to delete task.")) s.
Proof. intros Hrun. unfold handleDelete. now rewrite Hrun. Qed.

(** The initial load keeps the list as well, and ends the loading state
    unless the component was unmounted. *)
Lemma load_failed (s : state) (e : JS.error) :
  run net listTasks = Thrown e ->
  load net listTasks false s
  = setLoading false
      (setError (message_or e (js "Failed to load tasks.")) s)
  /\ tasks (load net listTasks true s) = tasks s.
Proof. intros Hrun. unfold load. now rewrite Hrun. Qed.

(** A handler that returns before calling the client leaves the state as
    it is. *)
Lemma handleAdd_blank (render s : state) :
  trim (newTitle render) = [] -> handleAdd net createTask render s = s.
Proof. intros H. unfold handleAdd. now rewrite H. Qed.

Lemma saveEdit_blank (render : state) (taskId : Z) (s : state) :
  trim (editingTitle render) = [] ->
  saveEdit net updateTask render taskId s = s.
Proof. intros H. unfold saveEdit. now rewrite H. Qed.

(** C9: when the operation a handler awaits throws, the handler leaves
    the task list as it was and changes the error message only, to the
    error's message or, when that is empty, to the handler's fallback. *)
Theorem failed_operation_keeps_tasks (render s : state) (taskId : Z)
  (e : JS.error) :
  (trim (newTitle render) <> [] ->
   run net (createTask (trim (newTitle render))) = Thrown e ->
   handleAdd net createTask render s
   = setError (message_or e (js "Failed to create task.")) s
   /\ tasks (handleAdd net createTask render s) = tasks s)
  /\ (run net (toggleTask taskId) = Thrown e ->
      handleToggle net toggleTask taskId s
      = setError (message_or e (js "Failed to toggle task.")) s
      /\ tasks (handleToggle net toggleTask taskId s) = tasks s)
  /\ (trim (editingTitle render) <> [] ->
      run net (updateTask taskId (trim (editingTitle render))) = Thrown e ->
      saveEdit net updateTask render taskId s
      = setError (message_or e (js "Failed to update task.")) s
      /\ tasks (saveEdit net updateTask render taskId s) = tasks s)
  /\ (run net (deleteTask taskId) = Thrown e ->
      handleDelete net deleteTask render taskId s
      = setError (message_or e (js "Failed to delete task.")) s
      /\ tasks (handleDelete net deleteTask render taskId s) = tasks s).
Proof.
  split; [|split; [|split]].
  - intros Hne Hrun.
    rewrite (handleAdd_failed render s e Hne Hrun); now split.
  - intros Hrun.
    rewrite (handleToggle_failed taskId s e Hrun); now split.
  - intros Hne Hrun.
    rewrite (saveEdit_failed render taskId s e Hne Hrun); now split.
  - intros Hrun.
    rewrite (handleDelete_failed render taskId s e Hrun); now split.
Qed.

End FailedOperation.

Lemma failed_operation_keeps_tasks_witness :
  (App.handleAdd Session.net Session.createTask Session.shown Session.shown
   = App.setError
       (js "POST /tasks failed (500). Received HTML instead of JSON. Check API base URL configuration.")
       Session.shown
   /\ App.tasks
        (App.handleAdd Session.net Session.createTask Session.shown
           Session.shown)
      = App.tasks Session.shown)
  /\ (App.handleDelete Session.net Session.deleteTask Session.shown 1
        Session.shown
      = App.setError
          (js "DELETE /tasks/1 failed (500). Received HTML instead of JSON. Check API base URL configuration.")
          Session.shown
      /\ App.tasks
           (App.handleDelete Session.net Session.deleteTask Session.shown 1
              Session.shown)
         = App.tasks Session.shown).
Proof.
  split.
  - destruct (failed_operation_keeps_tasks Session.net Session.createTask
                Session.updateTask Session.toggleTask Session.deleteTask
                Session.shown Session.shown 1
                (Session.failed (js "POST /tasks"))) as [Hadd _].
    apply Hadd; [discriminate|reflexivity].
  - destruct (failed_operation_keeps_tasks Session.net Session.createTask
                Session.updateTask Session.toggleTask Session.deleteTask
                Session.shown Session.shown 1
                (Session.failed (js "DELETE /tasks/1"))) as [_ [_ [_ Hdel]]].
    apply Hdel; reflexivity.
Defined.

(** ** More on the client: what a returned value means, transport
    failures, the content type and the base URL *)

Lemma requestJson_unanswered (process_env : env) (net : network)
  (path : jsstring) (opts : options) (e : error) :
  net (url process_env path) opts = Thrown e ->
  run net (requestJson process_env path opts) = Thrown e.
Proof.
  intros Hnet. unfold requestJson, fetch; cbn [bind run ret throw].
  now rewrite Hnet.
Qed.

Lemma perform_unanswered (process_env : env) (net : network) (op : operation)
  (e : error) :
  net (url process_env (op_path op)) (op_options op) = Thrown e ->
  run net (perform process_env op) = Thrown e.
Proof.
  intros Hnet.
  destruct (returns_json op) eqn:Hj.
  - rewrite perform_requestJson by exact Hj.
    now apply requestJson_unanswered.
  - destruct op; try discriminate Hj.
    change (net (url process_env (task_path taskId)) delete_options
            = Thrown e) in Hnet.
    unfold perform, deleteTask, fetch; cbn [bind run ret throw].
    now rewrite Hnet.
Qed.

(** X3: when [fetch] itself rejects, every operation rejects with the
    error of [fetch], unchanged, after that one request. *)
Theorem transport_failure_is_rethrown (process_env : env) (net : network)
  (op : operation) (e : error) :
  net (url process_env (op_path op)) (op_options op) = Thrown e ->
  run net (perform process_env op) = Thrown e
  /\ requests net (perform process_env op)
     = [ (API_BASE process_env ++ op_path op, op_options op) ].
Proof.
  intros Hnet. split.
  - now apply perform_unanswered.
  - apply request_of_perform.
Qed.

Lemma transport_failure_is_rethrown_witness :
  run (fun _ _ => Thrown (TypeError (js "Failed to fetch")))
    (perform no_env (Toggle 4))
  = Thrown (TypeError (js "Failed to fetch"))
  /\ requests (fun _ _ => Thrown (TypeError (js "Failed to fetch")))
       (perform no_env (Toggle 4))
     = [ (js "/tasks/4/toggle", op_options (Toggle 4)) ].
Proof.
  apply (transport_failure_is_rethrown no_env
           (fun _ _ => Thrown (TypeError (js "Failed to fetch")))
           (Toggle 4) (TypeError (js "Failed to fetch"))).
  reflexivity.
Defined.

Lemma perform_returned_inv (process_env : env) (net : network)
  (op : operation) (v : value) :
  returns_json op = true ->
  run net (perform process_env op) = Returned v ->
  exists res,
    net (url process_env (op_path op)) (op_options op) = Returned res
    /\ ok res = true
    /\ json_response res = true
    /\ json res = Returned v
    /\ is_string v = false
    /\ marked v = false.
Proof.
  intros Hj Hrun.
  destruct (net (url process_env (op_path op)) (op_options op))
    as [res|e] eqn:Hnet.
  2:{ rewrite (perform_unanswered process_env net op e Hnet) in Hrun.
      discriminate Hrun. }
  exists res. split; [reflexivity|].
  destruct (ok res) eqn:Hok.
  2:{ rewrite (perform_failed process_env net op res Hnet Hok) in Hrun.
      discriminate Hrun. }
  rewrite perform_requestJson in Hrun by exact Hj.
  destruct (is_string (safeReadBody res)) eqn:Hs.
  { rewrite (requestJson_string process_env net _ _ res Hnet Hok Hs) in Hrun.
    discriminate Hrun. }
  destruct (marked (safeReadBody res)) eqn:Hm.
  { rewrite (requestJson_marked process_env net _ _ res Hnet Hok Hs Hm)
      in Hrun.
    discriminate Hrun. }
  rewrite (requestJson_returned process_env net _ _ res Hnet Hok Hs Hm)
    in Hrun.
  injection Hrun as Hv.
  destruct (json_response res) eqn:Hct.
  2:{ rewrite (safeReadBody_text_is_string res Hct) in Hs. discriminate Hs. }
  destruct (json res) as [v'|e] eqn:Hjson.
  2:{ rewrite (safeReadBody_unparsable res e Hct Hjson) in Hm.
      discriminate Hm. }
  rewrite (safeReadBody_parsed res v' Hct Hjson) in Hv, Hs, Hm.
  subst v'. repeat split; assumption.
Qed.

(** X2: an operation that goes through [requestJson] returns a value only
    when the request was answered with a success status and a JSON content
    type, and the value is the decoded body, which is neither a string nor
    an object with a truthy [__parse_error] property. *)
Theorem returned_value_is_decoded (process_env : env) (net : network)
  (op : operation) (v : value) :
  returns_json op = true ->
  run net (perform process_env op) = Returned v ->
  exists res,
    net (url process_env (op_path op)) (op_options op) = Returned res
    /\ ok res = true
    /\ json_response res = true
    /\ json res = Returned v
    /\ is_string v = false
    /\ marked v = false.
Proof. apply perform_returned_inv. Qed.

Lemma returned_value_is_decoded_witness :
  exists res,
    answer created_response (url no_env (op_path (Create (VStr (js "Buy milk")))))
      (op_options (Create (VStr (js "Buy milk")))) = Returned res
    /\ ok res = true
    /\ json_response res = true
    /\ json res = Returned created_task
    /\ is_string created_task = false
    /\ marked created_task = false.
Proof.
  apply (returned_value_is_decoded no_env (answer created_response)
           (Create (VStr (js "Buy milk"))) created_task); reflexivity.
Defined.

Lemma includes_unfold (s sub : jsstring) :
  includes s sub
  = startsWith s sub
    || match s with [] => false | _ :: s' => includes s' sub end.
Proof. now destruct s. Qed.

Lemma includes_app (pre sub post : jsstring) :
  includes (pre ++ sub ++ post) sub = true.
Proof.
  induction pre as [|c pre IH].
  - rewrite includes_unfold; simpl. now rewrite startsWith_app.
  - rewrite includes_unfold; simpl. rewrite IH. apply orb_true_r.
Qed.

Lemma toLowerCase_app (a b : jsstring) :
  toLowerCase (a ++ b) = toLowerCase a ++ toLowerCase b.
Proof. apply map_app. Qed.

Lemma or_string_some (h : jsstring) : or_string (Some h) (js "") = h.
Proof. now destruct h. Qed.

(** X4: a content type that contains [application/json] or [+json] in any
    letter case, anywhere in the header value (so with parameters such as a
    charset after it), selects the JSON branch: the body that parses is what
    [safeReadBody] returns. *)
Theorem json_content_type_any_case (res : Response)
  (pre mid post : jsstring) (v : value) :
  headers_get_content_type res = Some (pre ++ mid ++ post) ->
  toLowerCase mid = js "application/json" \/ toLowerCase mid = js "+json" ->
  json res = Returned v ->
  json_response res = true /\ safeReadBody res = v.
Proof.
  intros Hh Hmid Hv.
  assert (Hct : json_response res = true).
  { unfold json_response, lowered_content_type, is_json_content_type.
    rewrite Hh, or_string_some, !toLowerCase_app.
    destruct Hmid as [-> | ->]; rewrite includes_app.
    - reflexivity.
    - apply orb_true_r. }
  split; [exact Hct|].
  now apply safeReadBody_parsed.
Qed.

Lemma json_content_type_any_case_witness :
  json_response problem_json_response = true
  /\ safeReadBody problem_json_response = created_task.
Proof.
  apply (json_content_type_any_case problem_json_response
           (js "Application/Problem") (js "+JSON") (js "; charset=utf-8")
           created_task);
    [reflexivity | right; reflexivity | reflexivity].
Defined.

Lemma replace_trailing_slash_keeps (v : jsstring) :
  (forall w, v <> w ++ js "/") -> replace_trailing_slash v = v.
Proof.
  intros Hno.
  destruct (rev v) as [|c r] eqn:E.
  - apply (f_equal (@rev _)) in E; rewrite rev_involutive in E. now subst v.
  - apply (f_equal (@rev _)) in E; rewrite rev_involutive in E.
    simpl in E; subst v.
    rewrite replace_trailing_slash_snoc.
    destruct (N.eqb_spec c 47) as [->|Hne]; [|reflexivity].
    now elim (Hno (rev r)).
Qed.

Lemma api_base_first (x : jsstring) (second : option jsstring) :
  x <> [] ->
  API_BASE {| REACT_APP_API_BASE := Some x;
              REACT_APP_API_BASE_URL := second |}
  = replace_trailing_slash x.
Proof.
  intros Hne. destruct x as [|c t]; [now elim Hne|reflexivity].
Qed.

(** X5: a base URL given in [REACT_APP_API_BASE] with or without one
    trailing slash resolves to the same prefix, whatever
    [REACT_APP_API_BASE_URL] holds, and a request URL is that prefix followed
    by the path. *)
Theorem api_base_ignores_trailing_slash (v : jsstring)
  (second : option jsstring) (path : jsstring) :
  v <> [] ->
  (forall w, v <> w ++ js "/") ->
  API_BASE {| REACT_APP_API_BASE := Some v;
              REACT_APP_API_BASE_URL := second |} = v
  /\ API_BASE {| REACT_APP_API_BASE := Some (v ++ js "/");
                 REACT_APP_API_BASE_URL := second |} = v
  /\ url {| REACT_APP_API_BASE := Some (v ++ js "/");
            REACT_APP_API_BASE_URL := second |} path = v ++ path.
Proof.
  intros Hne Hno.
  assert (H2 : API_BASE {| REACT_APP_API_BASE := Some (v ++ js "/");
                           REACT_APP_API_BASE_URL := second |} = v).
  { rewrite api_base_first by (now destruct v).
    change (js "/") with [47%N].
    now rewrite replace_trailing_slash_snoc. }
  split; [|split].
  - rewrite api_base_first by exact Hne.
    now apply replace_trailing_slash_keeps.
  - exact H2.
  - unfold url. now rewrite H2.
Qed.

Lemma api_base_ignores_trailing_slash_witness :
  API_BASE {| REACT_APP_API_BASE := Some (js "http://api:3001");
              REACT_APP_API_BASE_URL := Some (js "http://other:8000") |}
  = js "http://api:3001"
  /\ API_BASE {| REACT_APP_API_BASE := Some (js "http://api:3001" ++ js "/");
                 REACT_APP_API_BASE_URL := Some (js "http://other:8000") |}
     = js "http://api:3001"
  /\ url {| REACT_APP_API_BASE := Some (js "http://api:3001" ++ js "/");
            REACT_APP_API_BASE_URL := Some (js "http://other:8000") |}
       (js "/tasks")
     = js "http://api:3001" ++ js "/tasks".
Proof.
  apply (api_base_ignores_trailing_slash (js "http://api:3001")
           (Some (js "http://other:8000")) (js "/tasks")).
  - discriminate.
  - intros w H.
    apply (f_equal (@rev _)) in H. rewrite rev_app_distr in H.
    discriminate H.
Defined.

Lemma trimStart_blank (ws s : jsstring) :
  blank ws = true -> trimStart (ws ++ s) = trimStart s.
Proof.
  induction ws as [|c ws IH]; simpl; [reflexivity|].
  intros H; apply andb_true_iff in H as [Hc Hws].
  rewrite Hc. now apply IH.
Qed.

Lemma trimStart_all_blank (ws : jsstring) :
  blank ws = true -> trimStart ws = [].
Proof.
  intros H. rewrite <- (app_nil_r ws). now rewrite trimStart_blank.
Qed.

Lemma trim_blank (ws : jsstring) : blank ws = true -> trim ws = [].
Proof.
  intros H. unfold trim. now rewrite trimStart_all_blank.
Qed.

(** X6: on a non-success status, a text body that begins with [<!DOCTYPE]
    after any run of white space gets the HTML hint from every operation,
    and the message does not carry the body. *)
Theorem padded_doctype_gets_html_hint (process_env : env) (net : network)
  (op : operation) (res : Response) (ws s : jsstring) :
  net (url process_env (op_path op)) (op_options op) = Returned res ->
  ok res = false ->
  safeReadBody res = VStr (ws ++ s) ->
  blank ws = true ->
  startsWith s (js "<!DOCTYPE") = true ->
  run net (perform process_env op)
  = Thrown (Error (op_method op ++ js " " ++ op_path op ++ js " failed ("
                     ++ string_of_N (status res) ++ js "). " ++ html_hint)).
Proof.
  intros Hnet Hok Hb Hws Hs.
  rewrite (perform_failed process_env net op res Hnet Hok).
  rewrite toHelpfulErrorMessage_hint, Hb.
  unfold html_document, trim.
  rewrite trimStart_blank by exact Hws.
  fold (trim s). now rewrite doctype_survives_trim.
Qed.

Lemma padded_doctype_gets_html_hint_witness :
  run (answer indented_html_response) (perform no_env (Update 3 VNull))
  = Thrown (Error (js "PUT" ++ js " " ++ op_path (Update 3 VNull)
                     ++ js " failed (" ++ string_of_N 500 ++ js "). "
                     ++ html_hint)).
Proof.
  apply (padded_doctype_gets_html_hint no_env (answer indented_html_response)
           (Update 3 VNull) indented_html_response (js " ")
           (js "<!DOCTYPE html>")); reflexivity.
Defined.

(** ** The earlier client *)

Section PlainClient.

Variable process_env : env.
Variable net : network.

Lemma plain_requests (op : operation) :
  requests net (PlainTasksApi.perform process_env op)
  = [ (PlainTasksApi.API_BASE process_env ++ op_path op, op_options op) ].
Proof.
  destruct op;
    unfold PlainTasksApi.perform, PlainTasksApi.listTasks,
      PlainTasksApi.createTask, PlainTasksApi.updateTask,
      PlainTasksApi.toggleTask, PlainTasksApi.deleteTask, fetch,
      PlainTasksApi.url;
    cbn [bind requests ret throw op_options op_path];
    try (rewrite <- app_assoc);
    (destruct (net _ _) as [r|e]; [|reflexivity]);
    cbn [bind requests ret throw];
    destruct (negb (ok r)); try reflexivity;
    destruct (json r); reflexivity.
Qed.

Lemma plain_answered (op : operation) (res : Response) :
  net (PlainTasksApi.url process_env (op_path op)) (op_options op)
    = Returned res ->
  run net (PlainTasksApi.perform process_env op)
  = if negb (ok res) then
      Thrown (Error (PlainTasksApi.failed_to op ++ js " ("
                       ++ string_of_N (status res) ++ js ")"))
    else if returns_json op then json res
    else Returned VUndefined.
Proof.
  intros Hnet.
  destruct op;
    unfold PlainTasksApi.perform, PlainTasksApi.listTasks,
      PlainTasksApi.createTask, PlainTasksApi.updateTask,
      PlainTasksApi.toggleTask, PlainTasksApi.deleteTask, fetch;
    cbn [bind run ret throw];
    match goal with
    | |- context [net ?u ?o] => change (net u o = Returned res) in Hnet
    end;
    rewrite Hnet;
    cbn [bind run ret throw returns_json];
    destruct (negb (ok res)); try reflexivity;
    destruct (json res); reflexivity.
Qed.

(** X7: on a non-success status every operation of the earlier client
    throws [Failed to ... (STATUS)], naming what it failed to do and the
    status, whatever the headers and the body. *)
Theorem plain_client_non_success (op : operation) (res : Response) :
  net (PlainTasksApi.url process_env (op_path op)) (op_options op)
    = Returned res ->
  ok res = false ->
  run net (PlainTasksApi.perform process_env op)
  = Thrown (Error (PlainTasksApi.failed_to op ++ js " ("
                     ++ string_of_N (status res) ++ js ")")).
Proof.
  intros Hnet Hok. rewrite (plain_answered op res Hnet). now rewrite Hok.
Qed.

(** X8: on a success status the earlier client hands on what
    [res.json()] settles to and looks at neither the content type nor the
    value: a decoded value of any shape is returned, a string or an object
    with [__parse_error] included, and a body that does not parse rejects
    the operation with the parser's own error; [deleteTask] returns no
    value. *)
Theorem plain_client_success (op : operation) (res : Response) :
  net (PlainTasksApi.url process_env (op_path op)) (op_options op)
    = Returned res ->
  ok res = true ->
  (returns_json op = true ->
   run net (PlainTasksApi.perform process_env op) = json res)
  /\ (returns_json op = false ->
      run net (PlainTasksApi.perform process_env op) = Returned VUndefined).
Proof.
  intros Hnet Hok. rewrite (plain_answered op res Hnet), Hok; simpl.
  split; intros ->; reflexivity.
Qed.

End PlainClient.

Lemma plain_client_non_success_witness :
  run (answer html_error_response) (PlainTasksApi.perform no_env List)
  = Thrown (Error (js "Failed to list tasks" ++ js " (" ++ string_of_N 500
                     ++ js ")")).
Proof.
  apply (plain_client_non_success no_env (answer html_error_response) List
           html_error_response); reflexivity.
Defined.

Lemma plain_client_success_witness :
  (returns_json List = true ->
   run (answer json_string_response) (PlainTasksApi.perform no_env List)
   = Returned (VStr (js "pong")))
  /\ (returns_json List = false ->
      run (answer json_string_response) (PlainTasksApi.perform no_env List)
      = Returned VUndefined).
Proof.
  apply (plain_client_success no_env (answer json_string_response) List
           json_string_response); reflexivity.
Defined.

Lemma api_base_unset (process_env : env) :
  unset (REACT_APP_API_BASE process_env) = true ->
  API_BASE process_env = PlainTasksApi.API_BASE process_env.
Proof.
  destruct process_env as [[[|c s]|] second]; simpl; intros H;
    try discriminate H; reflexivity.
Qed.

(** X9: with [REACT_APP_API_BASE] unset or empty the two clients send the
    same request for every operation, whatever the outcome, and whenever
    the later client returns a value the earlier one returns the same
    value. *)
Theorem clients_agree_on_returned (process_env : env) (net : network)
  (op : operation) :
  unset (REACT_APP_API_BASE process_env) = true ->
  requests net (PlainTasksApi.perform process_env op)
  = requests net (perform process_env op)
  /\ (forall v,
        run net (perform process_env op) = Returned v ->
        run net (PlainTasksApi.perform process_env op) = Returned v).
Proof.
  intros Hu.
  pose proof (api_base_unset process_env Hu) as Hbase.
  split.
  { now rewrite plain_requests, request_of_perform, Hbase. }
  intros v Hrun.
  destruct (returns_json op) eqn:Hj.
  - destruct (perform_returned_inv process_env net op v Hj Hrun)
      as [res [Hnet [Hok [_ [Hv _]]]]].
    unfold url in Hnet; rewrite Hbase in Hnet.
    rewrite (plain_answered process_env net op res Hnet), Hok, Hj; simpl.
    exact Hv.
  - destruct (net (url process_env (op_path op)) (op_options op))
      as [res|e] eqn:Hnet.
    2:{ rewrite (perform_unanswered process_env net op e Hnet) in Hrun.
        discriminate Hrun. }
    destruct op; try discriminate Hj.
    rewrite (perform_delete process_env net taskId res Hnet) in Hrun.
    unfold url in Hnet; rewrite Hbase in Hnet.
    rewrite (plain_answered process_env net _ res Hnet); simpl.
    destruct (ok res); simpl; [exact Hrun|discriminate Hrun].
Qed.

Lemma clients_agree_on_returned_witness :
  requests (answer html_error_response)
    (PlainTasksApi.perform no_env (Create (VStr (js "Buy milk"))))
  = requests (answer html_error_response)
      (perform no_env (Create (VStr (js "Buy milk"))))
  /\ run (answer created_response)
       (PlainTasksApi.perform no_env (Create (VStr (js "Buy milk"))))
     = Returned created_task.
Proof.
  split.
  - apply (proj1 (clients_agree_on_returned no_env
                    (answer html_error_response)
                    (Create (VStr (js "Buy milk"))) eq_refl)).
  - apply (proj2 (clients_agree_on_returned no_env
                    (answer created_response)
                    (Create (VStr (js "Buy milk"))) eq_refl) created_task).
    reflexivity.
Defined.

(** ** The order of the list on screen *)

Section Sorting.
Import App.

Lemma compare_tasks_before (a b : Task) :
  (compare_tasks a b <=? 0)%Z = true <-> before a b.
Proof.
  unfold compare_tasks, before.
  destruct (is_completed a), (is_completed b); simpl; split; intros H.
  all: try (apply Z.leb_le in H; right; split; [reflexivity|lia]).
  all: try (destruct H as [[H1 H2]|[H1 H2]]; try discriminate;
            apply Z.leb_le; lia).
  all: try discriminate H.
  all: try (left; split; reflexivity).
  all: try reflexivity.
  all: destruct H as [[H1 H2]|[H1 H2]]; discriminate.
Qed.

Lemma compare_tasks_after (a b : Task) :
  (compare_tasks a b <=? 0)%Z = false -> before b a.
Proof.
  unfold compare_tasks, before.
  destruct (is_completed a), (is_completed b); simpl; intros H;
    try discriminate H; try apply Z.leb_gt in H;
    first [ left; split; reflexivity | right; split; [reflexivity|lia] ].
Qed.

Lemma before_trans (a b c : Task) : before a b -> before b c -> before a c.
Proof.
  unfold before.
  destruct (is_completed a), (is_completed b), (is_completed c);
    intros [[H1 H2]|[H1 H2]] [[H3 H4]|[H3 H4]];
    try discriminate; try (now left); right; split; try reflexivity; lia.
Qed.

Lemma sort_insert_perm (x : Task) (l : list Task) :
  Permutation (sort_insert compare_tasks x l) (x :: l).
Proof.
  induction l as [|y l IH]; simpl.
  - apply Permutation_refl.
  - destruct (compare_tasks x y <=? 0)%Z.
    + apply Permutation_refl.
    + apply perm_trans with (y :: x :: l).
      * now apply perm_skip.
      * apply perm_swap.
Qed.

Lemma sortTasks_perm (l : list Task) : Permutation (sortTasks l) l.
Proof.
  unfold sortTasks, sort.
  induction l as [|x l IH]; simpl.
  - apply perm_nil.
  - apply perm_trans with (x :: fold_right (sort_insert compare_tasks) [] l).
    + apply sort_insert_perm.
    + now apply perm_skip.
Qed.

Lemma sort_insert_hd (x y : Task) (l : list Task) :
  before y x -> HdRel before y l ->
  HdRel before y (sort_insert compare_tasks x l).
Proof.
  intros Hyx Hhd.
  destruct l as [|z l]; simpl.
  - now constructor.
  - destruct (compare_tasks x z <=? 0)%Z; constructor.
    + exact Hyx.
    + now inversion Hhd.
Qed.

Lemma sort_insert_sorted (x : Task) (l : list Task) :
  Sorted before l -> Sorted before (sort_insert compare_tasks x l).
Proof.
  induction 1 as [|y l Hs IH Hhd]; simpl.
  - repeat constructor.
  - destruct (compare_tasks x y <=? 0)%Z eqn:E.
    + constructor.
      * now constructor.
      * constructor. now apply compare_tasks_before.
    + constructor.
      * exact IH.
      * apply sort_insert_hd; [|exact Hhd].
        now apply compare_tasks_after.
Qed.

Lemma sortTasks_locally_sorted (l : list Task) : Sorted before (sortTasks l).
Proof.
  unfold sortTasks, sort.
  induction l as [|x l IH]; simpl.
  - constructor.
  - now apply sort_insert_sorted.
Qed.

Lemma Sorted_before_strong (l : list Task) :
  Sorted before l -> StronglySorted before l.
Proof.
  apply Sorted_StronglySorted.
  intros a b c. apply before_trans.
Qed.

Lemma sorted_is_fixed (l : list Task) : Sorted before l -> sortTasks l = l.
Proof.
  unfold sortTasks, sort.
  induction 1 as [|x l Hs IH Hhd]; simpl.
  - reflexivity.
  - rewrite IH.
    destruct Hhd as [|y l Hxy]; simpl.
    + reflexivity.
    + apply compare_tasks_before in Hxy. now rewrite Hxy.
Qed.

End Sorting.

Section DisplayOrder.
Import App.

(** X10: [sortTasks] returns the tasks it was given, each as often as it
    was given, with every task that is not completed before every completed
    one and, within the same completion state, ids in descending order. *)
Theorem sortTasks_sorted_permutation (l : list Task) :
  Permutation (sortTasks l) l
  /\ StronglySorted before (sortTasks l)
  /\ List.length (sortTasks l) = List.length l.
Proof.
  split; [|split].
  - apply sortTasks_perm.
  - apply Sorted_before_strong, sortTasks_locally_sorted.
  - apply Permutation_length, sortTasks_perm.
Qed.

(** X11: a list already in display order is left as it is, so sorting
    twice is sorting once. *)
Theorem sortTasks_fixes_sorted (l : list Task) :
  (StronglySorted before l -> sortTasks l = l)
  /\ sortTasks (sortTasks l) = sortTasks l.
Proof.
  split.
  - intros H. apply sorted_is_fixed. now apply StronglySorted_Sorted.
  - apply sorted_is_fixed, sortTasks_locally_sorted.
Qed.

Lemma before_antisym (a b : Task) :
  before a b -> before b a ->
  is_completed a = is_completed b /\ id a = id b.
Proof.
  unfold before.
  destruct (is_completed a), (is_completed b);
    intros [[H1 H2]|[H1 H2]] [[H3 H4]|[H3 H4]];
    try discriminate; split; try reflexivity; lia.
Qed.

Lemma same_id_same_task (l : list Task) (a b : Task) :
  NoDup (map id l) -> In a l -> In b l -> id a = id b -> a = b.
Proof.
  induction l as [|x l IH]; simpl; intros Hnd Ha Hb Hid; [contradiction|].
  inversion Hnd as [|? ? Hnotin Hnd']; subst.
  destruct Ha as [->|Ha], Hb as [->|Hb].
  - reflexivity.
  - elim Hnotin. rewrite Hid. now apply in_map.
  - elim Hnotin. rewrite <- Hid. now apply in_map.
  - now apply IH.
Qed.

Lemma sorted_perm_unique (l l' : list Task) :
  StronglySorted before l -> StronglySorted before l' ->
  Permutation l l' ->
  (forall a b, In a l -> In b l -> before a b -> before b a -> a = b) ->
  l = l'.
Proof.
  revert l'; induction l as [|x l IH]; intros l' Hs Hs' Hp Hanti.
  - now apply Permutation_nil in Hp.
  - destruct l' as [|y l2].
    { apply Permutation_sym, Permutation_nil in Hp. discriminate Hp. }
    apply StronglySorted_inv in Hs as [Hsl Hx].
    apply StronglySorted_inv in Hs' as [Hsl2 Hy].
    rewrite Forall_forall in Hx, Hy.
    assert (Hxy : x = y).
    { assert (Hin1 : In x (y :: l2))
        by (apply (Permutation_in x Hp); now left).
      assert (Hin2 : In y (x :: l))
        by (apply (Permutation_in y (Permutation_sym Hp)); now left).
      destruct Hin1 as [<-|Hin1]; [reflexivity|].
      destruct Hin2 as [->|Hin2]; [reflexivity|].
      apply Hanti; [now left|now right|now apply Hx|now apply Hy]. }
    subst y. f_equal.
    apply IH; try assumption.
    + now apply Permutation_cons_inv in Hp.
    + intros a b Ha Hb. apply Hanti; now right.
Qed.

(** X12: when ids are distinct, the order on screen depends on the tasks
    only, not on the order in which they arrived. *)
Theorem display_order_is_canonical (l l' : list Task) :
  NoDup (map id l) ->
  Permutation l l' ->
  sortTasks l = sortTasks l'.
Proof.
  intros Hnd Hp.
  apply sorted_perm_unique.
  - apply Sorted_before_strong, sortTasks_locally_sorted.
  - apply Sorted_before_strong, sortTasks_locally_sorted.
  - apply perm_trans with l; [apply sortTasks_perm|].
    apply perm_trans with l'; [exact Hp|].
    apply Permutation_sym, sortTasks_perm.
  - intros a b Ha Hb Hab Hba.
    apply (same_id_same_task l a b Hnd).
    + apply (Permutation_in a (sortTasks_perm l) Ha).
    + apply (Permutation_in b (sortTasks_perm l) Hb).
    + apply (before_antisym a b Hab Hba).
Qed.

(** X13: the count of remaining tasks never exceeds the total and does not
    depend on the order of the list, so sorting leaves it unchanged. *)
Theorem remainingCount_order_free (l l' : list Task) :
  Permutation l l' ->
  remainingCount l = remainingCount l'
  /\ remainingCount (sortTasks l) = remainingCount l
  /\ (remainingCount l <= List.length l)%nat.
Proof.
  assert (Hperm : forall a b : list Task, Permutation a b ->
                    remainingCount a = remainingCount b).
  { intros a b H. unfold remainingCount.
    induction H as [|x a b H IH|x y a|a b c H1 IH1 H2 IH2]; simpl.
    - reflexivity.
    - destruct (negb (is_completed x)); simpl; now rewrite IH.
    - now destruct (negb (is_completed x)), (negb (is_completed y)).
    - now rewrite IH1. }
  intros Hp. split; [|split].
  - now apply Hperm.
  - apply Hperm, sortTasks_perm.
  - unfold remainingCount. apply filter_length_le.
Qed.

End DisplayOrder.

Lemma display_order_is_canonical_witness :
  App.sortTasks (App.tasks Session.shown)
  = App.sortTasks (rev (App.tasks Session.shown)).
Proof.
  apply (display_order_is_canonical (App.tasks Session.shown)
           (rev (App.tasks Session.shown))).
  - repeat constructor; simpl; intuition discriminate.
  - apply perm_swap.
Defined.

Lemma remainingCount_order_free_witness :
  App.remainingCount (App.tasks Session.shown)
  = App.remainingCount (rev (App.tasks Session.shown))
  /\ App.remainingCount (App.sortTasks (App.tasks Session.shown))
     = App.remainingCount (App.tasks Session.shown)
  /\ (App.remainingCount (App.tasks Session.shown)
      <= List.length (App.tasks Session.shown))%nat.
Proof.
  apply (remainingCount_order_free (App.tasks Session.shown)
           (rev (App.tasks Session.shown))).
  apply perm_swap.
Defined.

Lemma shown_in_order : StronglySorted before (App.tasks Session.shown).
Proof.
  repeat constructor.
Defined.

Lemma sortTasks_fixes_sorted_witness :
  App.sortTasks (App.tasks Session.shown) = App.tasks Session.shown
  /\ App.sortTasks (App.sortTasks (App.tasks Session.shown))
     = App.sortTasks (App.tasks Session.shown).
Proof.
  destruct (sortTasks_fixes_sorted (App.tasks Session.shown)) as [H1 H2].
  split; [apply H1, shown_in_order | exact H2].
Defined.

(** ** The handlers when the operation succeeds *)

Section Succeeded.
Import App.

Variable net : network.
Variable listTasks : io (list Task).
Variable createTask : jsstring -> io Task.
Variable updateTask : Z -> jsstring -> io Task.
Variable toggleTask : Z -> io Task.
Variable deleteTask : Z -> io unit.

(** Reading a field of a state built by the setters. *)
Ltac read_state :=
  unfold cancelEdit, setEditingTitle, setEditingId, setNewTitle, setLoading,
    setTasks, setError;
  cbn [tasks newTitle error editingId editingTitle loading].

Lemma filter_keeps_order (f : Task -> bool) (l : list Task) :
  StronglySorted before l -> StronglySorted before (filter f l).
Proof.
  induction 1 as [|x l Hs IH Hx]; simpl.
  - constructor.
  - destruct (f x); [|exact IH].
    constructor; [exact IH|].
    rewrite Forall_forall in *. intros y Hy.
    apply filter_In in Hy as [Hy _]. now apply Hx.
Qed.

Lemma sortTasks_in_order (l : list Task) :
  StronglySorted before (sortTasks l).
Proof. apply Sorted_before_strong, sortTasks_locally_sorted. Qed.

Lemma In_replaced (taskId : Z) (updated t : Task) (l : list Task) :
  In t (replaced taskId updated l)
  <-> (In t l /\ id t <> taskId)
      \/ (t = updated /\ exists t0, In t0 l /\ id t0 = taskId).
Proof.
  unfold replaced. rewrite in_map_iff. split.
  - intros [t0 [Ht Hin]].
    destruct (Z.eqb_spec (id t0) taskId) as [He|Hne].
    + right. split; [now symmetry|]. now exists t0.
    + left. subst t0. now split.
  - intros [[Hin Hne]|[-> [t0 [Hin He]]]].
    + exists t. split; [|exact Hin].
      now destruct (Z.eqb_spec (id t) taskId).
    + exists t0. split; [|exact Hin].
      now destruct (Z.eqb_spec (id t0) taskId).
Qed.

(** X14: when [createTask] returns, [handleAdd] shows the created task
    together with the tasks already listed, in display order, clears the
    input and the error, and leaves the edit state alone. *)
Theorem handleAdd_adds (render s : state) (created : Task) :
  trim (newTitle render) <> [] ->
  run net (createTask (trim (newTitle render))) = Returned created ->
  Permutation (tasks (handleAdd net createTask render s))
    (created :: tasks s)
  /\ StronglySorted before (tasks (handleAdd net createTask render s))
  /\ newTitle (handleAdd net createTask render s) = js ""
  /\ error (handleAdd net createTask render s) = js ""
  /\ editingId (handleAdd net createTask render s) = editingId s
  /\ editingTitle (handleAdd net createTask render s) = editingTitle s.
Proof.
  intros Hne Hrun. unfold handleAdd.
  destruct (trim (newTitle render)) as [|c t] eqn:E; [now elim Hne|].
  rewrite Hrun; read_state.
  repeat split.
  - apply sortTasks_perm.
  - apply sortTasks_in_order.
Qed.

(** X15: when [toggleTask] or [updateTask] returns, the handler puts the
    returned task in the place of every task with that id and keeps all
    other tasks: the list has the same length, is in display order, and
    the error is cleared; [saveEdit] also leaves edit mode. *)
Theorem update_replaces_task (render s : state) (taskId : Z)
  (updated : Task) :
  (run net (toggleTask taskId) = Returned updated ->
   Permutation (tasks (handleToggle net toggleTask taskId s))
     (replaced taskId updated (tasks s))
   /\ (forall t, In t (tasks (handleToggle net toggleTask taskId s))
                 <-> (In t (tasks s) /\ id t <> taskId)
                     \/ (t = updated
                         /\ exists t0, In t0 (tasks s) /\ id t0 = taskId))
   /\ List.length (tasks (handleToggle net toggleTask taskId s))
      = List.length (tasks s)
   /\ StronglySorted before (tasks (handleToggle net toggleTask taskId s))
   /\ error (handleToggle net toggleTask taskId s) = js "")
  /\ (trim (editingTitle render) <> [] ->
      run net (updateTask taskId (trim (editingTitle render)))
        = Returned updated ->
      Permutation (tasks (saveEdit net updateTask render taskId s))
        (replaced taskId updated (tasks s))
      /\ List.length (tasks (saveEdit net updateTask render taskId s))
         = List.length (tasks s)
      /\ StronglySorted before
           (tasks (saveEdit net updateTask render taskId s))
      /\ error (saveEdit net updateTask render taskId s) = js ""
      /\ editingId (saveEdit net updateTask render taskId s) = None
      /\ editingTitle (saveEdit net updateTask render taskId s) = js "").
Proof.
  split.
  - intros Hrun. unfold handleToggle. rewrite Hrun; read_state.
    fold (replaced taskId updated (tasks s)).
    split; [apply sortTasks_perm|].
    split.
    { intros t. rewrite <- In_replaced.
      split; apply Permutation_in;
        [apply sortTasks_perm | apply Permutation_sym, sortTasks_perm]. }
    split.
    { rewrite (Permutation_length (sortTasks_perm _)).
      unfold replaced. apply length_map. }
    split; [apply sortTasks_in_order|reflexivity].
  - intros Hne Hrun. unfold saveEdit.
    destruct (trim (editingTitle render)) as [|c t] eqn:E; [now elim Hne|].
    rewrite Hrun; read_state.
    fold (replaced taskId updated (tasks s)).
    split; [apply sortTasks_perm|].
    split.
    { rewrite (Permutation_length (sortTasks_perm _)).
      unfold replaced. apply length_map. }
    split; [apply sortTasks_in_order|].
    repeat split.
Qed.

(** X16: when [deleteTask] returns, [handleDelete] removes exactly the
    tasks with that id, keeps the others in their order, clears the error,
    and leaves edit mode when the deleted task was the one being edited. *)
Theorem handleDelete_removes (render s : state) (taskId : Z) :
  run net (deleteTask taskId) = Returned tt ->
  (forall t, In t (tasks (handleDelete net deleteTask render taskId s))
             <-> In t (tasks s) /\ id t <> taskId)
  /\ tasks (handleDelete net deleteTask render taskId s)
     = filter (fun t => negb (id t =? taskId)%Z) (tasks s)
  /\ (StronglySorted before (tasks s) ->
      StronglySorted before
        (tasks (handleDelete net deleteTask render taskId s)))
  /\ error (handleDelete net deleteTask render taskId s) = js ""
  /\ (editingId render = Some taskId ->
      editingId (handleDelete net deleteTask render taskId s) = None
      /\ editingTitle (handleDelete net deleteTask render taskId s) = js "")
  /\ (editingId render <> Some taskId ->
      editingId (handleDelete net deleteTask render taskId s) = editingId s
      /\ editingTitle (handleDelete net deleteTask render taskId s)
         = editingTitle s).
Proof.
  intros Hrun. unfold handleDelete. rewrite Hrun.
  assert (Htasks :
    forall b : bool,
      tasks (if b
             then cancelEdit (setTasks (filter (fun t => negb (id t =? taskId)%Z))
                                (setError (js "") s))
             else setTasks (filter (fun t => negb (id t =? taskId)%Z))
                    (setError (js "") s))
      = filter (fun t => negb (id t =? taskId)%Z) (tasks s))
    by (now intros []).
  cbv zeta. rewrite Htasks.
  split; [|split; [reflexivity|split; [apply filter_keeps_order|]]].
  - intros t. rewrite filter_In.
    destruct (Z.eqb_spec (id t) taskId) as [He|Hne]; simpl.
    + split; [intros [_ H]; discriminate H | intros [_ H]; now elim H].
    + split; intros [H _]; now split.
  - split; [now destruct (editing render taskId)|].
    unfold editing. split.
    + intros ->. now rewrite Z.eqb_refl.
    + intros Hne. destruct (editingId render) as [i|]; [|now split].
      destruct (Z.eqb_spec i taskId) as [->|_]; [now elim Hne|now split].
Qed.

End Succeeded.

(** ** Blank titles, the initial load and the order kept by every handler *)

Section EveryHandler.
Import App.

Variable net : network.
Variable listTasks : io (list Task).
Variable createTask : jsstring -> io Task.
Variable updateTask : Z -> jsstring -> io Task.
Variable toggleTask : Z -> io Task.
Variable deleteTask : Z -> io unit.

(** X17: a new title or an edited title that is empty or white space only
    is ignored: the handler returns before it calls the client and the
    state stays as it is, whatever the client would have answered. *)
Theorem blank_title_is_ignored (render s : state) (taskId : Z) :
  (blank (newTitle render) = true ->
   handleAdd net createTask render s = s)
  /\ (blank (editingTitle render) = true ->
      saveEdit net updateTask render taskId s = s).
Proof.
  split; intros H.
  - unfold handleAdd. now rewrite (trim_blank _ H).
  - unfold saveEdit. now rewrite (trim_blank _ H).
Qed.

(** X18: when [listTasks] returns, the initial load shows the tasks it was
    given in display order and ends the loading state with no error; when
    the component was unmounted meanwhile, the list is not touched, whether
    the call returned or threw. *)
Theorem load_shows_sorted_list (s : state) (data : list Task) :
  run net listTasks = Returned data ->
  tasks (load net listTasks false s) = sortTasks data
  /\ Permutation (tasks (load net listTasks false s)) data
  /\ StronglySorted before (tasks (load net listTasks false s))
  /\ loading (load net listTasks false s) = false
  /\ error (load net listTasks false s) = js ""
  /\ tasks (load net listTasks true s) = tasks s.
Proof.
  intros Hrun. unfold load. rewrite Hrun.
  repeat split.
  - apply sortTasks_perm.
  - apply Sorted_before_strong, sortTasks_locally_sorted.
Qed.

(** X19: a list in display order stays in display order through the load
    and through every handler, whether the awaited operation returns or
    throws. *)
Theorem list_stays_in_order (render s : state) (taskId : Z)
  (cancelled : bool) :
  StronglySorted before (tasks s) ->
  StronglySorted before (tasks (load net listTasks cancelled s))
  /\ StronglySorted before (tasks (handleAdd net createTask render s))
  /\ StronglySorted before (tasks (handleToggle net toggleTask taskId s))
  /\ StronglySorted before
       (tasks (saveEdit net updateTask render taskId s))
  /\ StronglySorted before
       (tasks (handleDelete net deleteTask render taskId s)).
Proof.
  intros Hs.
  assert (Hsorted : forall l, StronglySorted before (sortTasks l))
    by (intros l; apply Sorted_before_strong, sortTasks_locally_sorted).
  repeat split.
  - unfold load.
    destruct (run net listTasks), cancelled; simpl;
      first [exact Hs | apply Hsorted].
  - unfold handleAdd.
    destruct (trim (newTitle render)); [exact Hs|].
    destruct (run net (createTask _));
      first [exact Hs | apply Hsorted].
  - unfold handleToggle.
    destruct (run net (toggleTask taskId));
      first [exact Hs | apply Hsorted].
  - unfold saveEdit.
    destruct (trim (editingTitle render)); [exact Hs|].
    destruct (run net (updateTask _ _));
      first [exact Hs | apply Hsorted].
  - unfold handleDelete.
    destruct (run net (deleteTask taskId)); [|exact Hs].
    destruct (editing render taskId);
      apply (filter_keeps_order _ _ Hs).
Qed.

End EveryHandler.

Lemma handleAdd_adds_witness :
  Permutation
    (App.tasks (App.handleAdd Served.net Served.createTask Session.shown
                  Session.shown))
    ({| App.id := 3; App.title := js "Walk the dog";
        App.is_completed := false |} :: App.tasks Session.shown)
  /\ StronglySorted before
       (App.tasks (App.handleAdd Served.net Served.createTask Session.shown
                     Session.shown))
  /\ App.newTitle (App.handleAdd Served.net Served.createTask Session.shown
                     Session.shown) = js ""
  /\ App.error (App.handleAdd Served.net Served.createTask Session.shown
                  Session.shown) = js ""
  /\ App.editingId (App.handleAdd Served.net Served.createTask Session.shown
                      Session.shown) = App.editingId Session.shown
  /\ App.editingTitle (App.handleAdd Served.net Served.createTask
                         Session.shown Session.shown)
     = App.editingTitle Session.shown.
Proof.
  apply (handleAdd_adds Served.net Served.createTask Session.shown
           Session.shown
           {| App.id := 3; App.title := js "Walk the dog";
              App.is_completed := false |});
    [discriminate | reflexivity].
Defined.

Lemma update_replaces_task_witness :
  App.tasks (App.handleToggle Served.net Served.toggleTask 1 Session.shown)
  = [ {| App.id := 2; App.title := js "Call the bank";
         App.is_completed := false |};
      {| App.id := 1; App.title := js "Buy milk";
         App.is_completed := false |} ]
  /\ App.error (App.handleToggle Served.net Served.toggleTask 1 Session.shown)
     = js "".
Proof.
  destruct (update_replaces_task Served.net Served.updateTask
              Served.toggleTask Session.shown Session.shown 1
              {| App.id := 1; App.title := js "Buy milk";
                 App.is_completed := false |}) as [Htoggle _].
  destruct (Htoggle eq_refl) as [_ [_ [_ [_ Herr]]]].
  split; [reflexivity | exact Herr].
Defined.

Lemma handleDelete_removes_witness :
  App.tasks (App.handleDelete Served.net Served.deleteTask Session.shown 1
               Session.shown)
  = filter (fun t => negb (App.id t =? 1)%Z) (App.tasks Session.shown)
  /\ App.editingId (App.handleDelete Served.net Served.deleteTask
                      Session.shown 1 Session.shown) = None.
Proof.
  destruct (handleDelete_removes Served.net Served.deleteTask Session.shown
              Session.shown 1 eq_refl)
    as [_ [Htasks [_ [_ [Hedit _]]]]].
  split; [exact Htasks | apply (Hedit eq_refl)].
Defined.

Lemma blank_title_is_ignored_witness :
  App.handleAdd Session.net Session.createTask
    (App.setNewTitle (js "   ") Session.shown) Session.shown
  = Session.shown
  /\ App.saveEdit Session.net Session.updateTask
       (App.setEditingTitle (js "") Session.shown) 1 Session.shown
     = Session.shown.
Proof.
  split.
  - apply (blank_title_is_ignored Session.net Session.createTask
             Session.updateTask
             (App.setNewTitle (js "   ") Session.shown) Session.shown 1).
    reflexivity.
  - apply (blank_title_is_ignored Session.net Session.createTask
             Session.updateTask
             (App.setEditingTitle (js "") Session.shown) Session.shown 1).
    reflexivity.
Defined.

Lemma load_shows_sorted_list_witness :
  App.tasks (App.load Served.net Served.listTasks false App.initial)
  = App.tasks Session.shown
  /\ App.loading (App.load Served.net Served.listTasks false App.initial)
     = false.
Proof.
  destruct (load_shows_sorted_list Served.net Served.listTasks App.initial
              [ {| App.id := 1; App.title := js "Buy milk";
                   App.is_completed := true |};
                {| App.id := 2; App.title := js "Call the bank";
                   App.is_completed := false |} ] eq_refl)
    as [Htasks [_ [_ [Hloading _]]]].
  split; [exact Htasks | exact Hloading].
Defined.

Lemma list_stays_in_order_witness :
  StronglySorted before
    (App.tasks (App.load Served.net Served.listTasks false Session.shown))
  /\ StronglySorted before
       (App.tasks (App.handleAdd Served.net Served.createTask Session.shown
                     Session.shown))
  /\ StronglySorted before
       (App.tasks (App.handleToggle Served.net Served.toggleTask 1
                     Session.shown))
  /\ StronglySorted before
       (App.tasks (App.saveEdit Served.net Served.updateTask Session.shown 1
                     Session.shown))
  /\ StronglySorted before
       (App.tasks (App.handleDelete Served.net Served.deleteTask
                     Session.shown 1 Session.shown)).
Proof.
  apply (list_stays_in_order Served.net Served.listTasks Served.createTask
           Served.updateTask Served.toggleTask Served.deleteTask
           Session.shown Session.shown 1 false).
  exact shown_in_order.
Defined.

Section ShownFailure.
Import App.

Variable net : network.
Variable createTask : jsstring -> io Task.
Variable updateTask : Z -> jsstring -> io Task.
Variable toggleTask : Z -> io Task.
Variable deleteTask : Z -> io unit.

Lemma message_or_shown (e : JS.error) (fallback : jsstring) :
  fallback <> [] -> message_or e fallback <> [].
Proof.
  intros Hf. unfold message_or, or_string.
  destruct (message e); [exact Hf|discriminate].
Qed.

(** X20: a failed operation is always shown: after a handler whose
    operation threw, the error of the state is not empty, also when the
    thrown error has an empty message, so the alert is rendered. *)
Theorem failure_is_always_shown (render s : state) (taskId : Z)
  (e : JS.error) :
  (trim (newTitle render) <> [] ->
   run net (createTask (trim (newTitle render))) = Thrown e ->
   error (handleAdd net createTask render s) <> js "")
  /\ (run net (toggleTask taskId) = Thrown e ->
      error (handleToggle net toggleTask taskId s) <> js "")
  /\ (trim (editingTitle render) <> [] ->
      run net (updateTask taskId (trim (editingTitle render))) = Thrown e ->
      error (saveEdit net updateTask render taskId s) <> js "")
  /\ (run net (deleteTask taskId) = Thrown e ->
      error (handleDelete net deleteTask render taskId s) <> js "").
Proof.
  split; [|split; [|split]].
  - intros Hne Hrun.
    rewrite (handleAdd_failed net createTask render s e Hne Hrun).
    now apply message_or_shown.
  - intros Hrun.
    rewrite (handleToggle_failed net toggleTask taskId s e Hrun).
    now apply message_or_shown.
  - intros Hne Hrun.
    rewrite (saveEdit_failed net updateTask render taskId s e Hne Hrun).
    now apply message_or_shown.
  - intros Hrun.
    rewrite (handleDelete_failed net deleteTask render taskId s e Hrun).
    now apply message_or_shown.
Qed.

End ShownFailure.

Lemma failure_is_always_shown_witness :
  App.error
    (App.handleDelete (fun _ _ => Thrown (Error (js "")))
       Session.deleteTask Session.shown 1 Session.shown)
  <> js "".
Proof.
  destruct (failure_is_always_shown (fun _ _ => Thrown (Error (js "")))
              Session.createTask Session.updateTask Session.toggleTask
              Session.deleteTask Session.shown Session.shown 1
              (Error (js ""))) as [_ [_ [_ Hdel]]].
  apply Hdel. reflexivity.
Defined.
